(** * The catch-zone game engine (js/gameEngine.js)

    A shallow embedding of the [GameEngine] class and the properties of its
    tick, collision, scoring and level logic.

    Modelling choices.
    - JavaScript numbers that hold times and positions ([y], timestamps,
      drop times) are exact rationals [Q]: the rounding of binary64
      arithmetic is abstracted away, comparisons and formulas are those of
      the source.  The counters [score], [level] and [missCount] only ever
      hold integers and are [Z].
    - Item kinds and zones are the string literals of the source, as
      enumerations; [zones[k]] with [k] out of range is JavaScript's
      [undefined], here [None].
    - [Math.random()] and [performance.now()] are inputs: every operation
      that draws or reads the clock takes the values as arguments, in the
      order the source consumes them.
    - The two callbacks are observed through the list [calls] of their
      invocations, oldest first.  A callback slot holds [null] ([false]) or
      a function ([true]); callbacks do not call back into the engine (those
      of main.js only write to the page). *)

From Stdlib Require Import ZArith QArith Qminmax Qround List String Bool Lia Lqa.
Import ListNotations.
Open Scope Q_scope.

(** ** Numbers *)

Definition Qltb (a b : Q) : bool := negb (Qle_bool b a).

(** ** Data *)

Inductive Kind : Set := apple | pear | orange | bomb.
Inductive Zone : Set := LEFT | CENTER | RIGHT.

Definition Kind_eqb (a b : Kind) : bool :=
  match a, b with
  | apple, apple | pear, pear | orange, orange | bomb, bomb => true
  | _, _ => false
  end.

Definition Zone_eqb (a b : Zone) : bool :=
  match a, b with
  | LEFT, LEFT | CENTER, CENTER | RIGHT, RIGHT => true
  | _, _ => false
  end.

(** [item.zone === this.basketPosition]: [undefined] equals no zone. *)
Definition zone_is (z : option Zone) (b : Zone) : bool :=
  match z with
  | Some z' => Zone_eqb z' b
  | None => false
  end.

(** The object literal pushed by [spawnItem]. *)
Record Item : Set := mkItem {
  type : Kind;
  zone : option Zone;
  y : Q;
  caught : bool;
  processed : bool
}.

Definition set_y (v : Q) (it : Item) : Item :=
  mkItem (type it) (zone it) v (caught it) (processed it).
Definition set_caught (v : bool) (it : Item) : Item :=
  mkItem (type it) (zone it) (y it) v (processed it).
Definition set_processed (v : bool) (it : Item) : Item :=
  mkItem (type it) (zone it) (y it) (caught it) v.

(** One invocation of a callback, with its arguments. *)
Inductive Call : Set :=
| ScoreChange (score level missCount : Z)
| GameEnd (score level : Z) (reason : string).

Record Engine : Set := mkEngine {
  isGameActive : bool;
  score : Z;
  level : Z;
  missCount : Z;
  levelDuration : Q;
  currentLevelTime : Q;
  baseDropTime : Q;
  currentDropTime : Q;
  items : list Item;
  lastSpawnTime : Q;
  nextSpawnInterval : Q;
  basketPosition : Zone;
  lastTime : Q;
  onScoreChange : bool;
  onGameEnd : bool;
  calls : list Call
}.

Definition set_isGameActive (v : bool) (e : Engine) : Engine :=
  mkEngine v (score e) (level e) (missCount e) (levelDuration e)
    (currentLevelTime e) (baseDropTime e) (currentDropTime e) (items e)
    (lastSpawnTime e) (nextSpawnInterval e) (basketPosition e) (lastTime e)
    (onScoreChange e) (onGameEnd e) (calls e).
Definition set_score (v : Z) (e : Engine) : Engine :=
  mkEngine (isGameActive e) v (level e) (missCount e) (levelDuration e)
    (currentLevelTime e) (baseDropTime e) (currentDropTime e) (items e)
    (lastSpawnTime e) (nextSpawnInterval e) (basketPosition e) (lastTime e)
    (onScoreChange e) (onGameEnd e) (calls e).
Definition set_level (v : Z) (e : Engine) : Engine :=
  mkEngine (isGameActive e) (score e) v (missCount e) (levelDuration e)
    (currentLevelTime e) (baseDropTime e) (currentDropTime e) (items e)
    (lastSpawnTime e) (nextSpawnInterval e) (basketPosition e) (lastTime e)
    (onScoreChange e) (onGameEnd e) (calls e).
Definition set_missCount (v : Z) (e : Engine) : Engine :=
  mkEngine (isGameActive e) (score e) (level e) v (levelDuration e)
    (currentLevelTime e) (baseDropTime e) (currentDropTime e) (items e)
    (lastSpawnTime e) (nextSpawnInterval e) (basketPosition e) (lastTime e)
    (onScoreChange e) (onGameEnd e) (calls e).
Definition set_currentLevelTime (v : Q) (e : Engine) : Engine :=
  mkEngine (isGameActive e) (score e) (level e) (missCount e) (levelDuration e)
    v (baseDropTime e) (currentDropTime e) (items e)
    (lastSpawnTime e) (nextSpawnInterval e) (basketPosition e) (lastTime e)
    (onScoreChange e) (onGameEnd e) (calls e).
Definition set_currentDropTime (v : Q) (e : Engine) : Engine :=
  mkEngine (isGameActive e) (score e) (level e) (missCount e) (levelDuration e)
    (currentLevelTime e) (baseDropTime e) v (items e)
    (lastSpawnTime e) (nextSpawnInterval e) (basketPosition e) (lastTime e)
    (onScoreChange e) (onGameEnd e) (calls e).
Definition set_items (v : list Item) (e : Engine) : Engine :=
  mkEngine (isGameActive e) (score e) (level e) (missCount e) (levelDuration e)
    (currentLevelTime e) (baseDropTime e) (currentDropTime e) v
    (lastSpawnTime e) (nextSpawnInterval e) (basketPosition e) (lastTime e)
    (onScoreChange e) (onGameEnd e) (calls e).
Definition set_lastSpawnTime (v : Q) (e : Engine) : Engine :=
  mkEngine (isGameActive e) (score e) (level e) (missCount e) (levelDuration e)
    (currentLevelTime e) (baseDropTime e) (currentDropTime e) (items e)
    v (nextSpawnInterval e) (basketPosition e) (lastTime e)
    (onScoreChange e) (onGameEnd e) (calls e).
Definition set_nextSpawnInterval (v : Q) (e : Engine) : Engine :=
  mkEngine (isGameActive e) (score e) (level e) (missCount e) (levelDuration e)
    (currentLevelTime e) (baseDropTime e) (currentDropTime e) (items e)
    (lastSpawnTime e) v (basketPosition e) (lastTime e)
    (onScoreChange e) (onGameEnd e) (calls e).
Definition set_basketPosition (v : Zone) (e : Engine) : Engine :=
  mkEngine (isGameActive e) (score e) (level e) (missCount e) (levelDuration e)
    (currentLevelTime e) (baseDropTime e) (currentDropTime e) (items e)
    (lastSpawnTime e) (nextSpawnInterval e) v (lastTime e)
    (onScoreChange e) (onGameEnd e) (calls e).
Definition set_lastTime (v : Q) (e : Engine) : Engine :=
  mkEngine (isGameActive e) (score e) (level e) (missCount e) (levelDuration e)
    (currentLevelTime e) (baseDropTime e) (currentDropTime e) (items e)
    (lastSpawnTime e) (nextSpawnInterval e) (basketPosition e) v
    (onScoreChange e) (onGameEnd e) (calls e).
Definition set_onScoreChange (v : bool) (e : Engine) : Engine :=
  mkEngine (isGameActive e) (score e) (level e) (missCount e) (levelDuration e)
    (currentLevelTime e) (baseDropTime e) (currentDropTime e) (items e)
    (lastSpawnTime e) (nextSpawnInterval e) (basketPosition e) (lastTime e)
    v (onGameEnd e) (calls e).
Definition set_onGameEnd (v : bool) (e : Engine) : Engine :=
  mkEngine (isGameActive e) (score e) (level e) (missCount e) (levelDuration e)
    (currentLevelTime e) (baseDropTime e) (currentDropTime e) (items e)
    (lastSpawnTime e) (nextSpawnInterval e) (basketPosition e) (lastTime e)
    (onScoreChange e) v (calls e).
Definition set_calls (v : list Call) (e : Engine) : Engine :=
  mkEngine (isGameActive e) (score e) (level e) (missCount e) (levelDuration e)
    (currentLevelTime e) (baseDropTime e) (currentDropTime e) (items e)
    (lastSpawnTime e) (nextSpawnInterval e) (basketPosition e) (lastTime e)
    (onScoreChange e) (onGameEnd e) v.

(** ** The methods of [GameEngine] *)

(** The two game-over messages of the source. *)
Definition reason_bomb : string := "폭탄을 건드렸습니다!"%string.
Definition reason_missed : string := "과일을 2놓쳐서 게임 오버!"%string.

(** [reset()] assigns every field but [lastTime] and the callback slots. *)
Definition reset (e : Engine) : Engine :=
  mkEngine false 0 1 0 20 0 2.0 2.0 [] 0 0 CENTER (lastTime e)
    (onScoreChange e) (onGameEnd e) (calls e).

(** [new GameEngine()]: [reset()], then both callbacks [null].  [lastTime] is
    not assigned before [start()]; no method reads it while the engine is
    inactive, and it is given the value 0 here. *)
Definition new_GameEngine : Engine :=
  set_onGameEnd false (set_onScoreChange false
    (reset (mkEngine false 0 0 0 0 0 0 0 [] 0 0 CENTER 0 false false []))).

Definition notifyChange (e : Engine) : Engine :=
  if onScoreChange e
  then set_calls (calls e ++ [ScoreChange (score e) (level e) (missCount e)]) e
  else e.

Definition gameOver (reason : string) (e : Engine) : Engine :=
  let e1 := set_isGameActive false e in
  if onGameEnd e1
  then set_calls (calls e1 ++ [GameEnd (score e1) (level e1) reason]) e1
  else e1.

Definition updateDropTime (e : Engine) : Engine :=
  set_currentDropTime (Qmax 0.5 (2.0 - (inject_Z (level e) - 1) * 0.2)) e.

(** [rand] is the value of [Math.random()].  The products and the sum are
    exact here; the source rounds each of them to binary64, which moves the
    interval by less than a billionth of a millisecond (and lets it reach
    [max] itself for a draw just below 1).  What is stated of the interval
    below is stated with a margin that covers this. *)
Definition scheduleNextSpawn (rand : Q) (e : Engine) : Engine :=
  let min := currentDropTime e * 600 in
  let max := currentDropTime e * 800 in
  set_nextSpawnInterval (rand * (max - min) + min) e.

Definition getRandomItemType (rand : Q) : Kind :=
  if Qltb rand 0.2 then bomb
  else if Qltb rand 0.6 then apple
  else if Qltb rand 0.85 then pear
  else orange.

Definition zones : list Zone := [LEFT; CENTER; RIGHT].

(** Array indexing by a number that holds an integer. *)
Definition array_get {A : Type} (l : list A) (k : Z) : option A :=
  if (k <? 0)%Z then None else nth_error l (Z.to_nat k).

(** [randType] is drawn first, then [randZone].  The product under
    [Math.floor] is exact here; the source rounds it to binary64, so for a
    draw within a rounding step below 1/3 or 2/3 the source already picks the
    next zone.  What is stated of the zone below keeps away from these two
    points. *)
Definition spawnItem (randType randZone : Q) (e : Engine) : Engine :=
  let type := getRandomItemType randType in
  set_items
    (items e ++
      [mkItem type
         (array_get zones (Qfloor (randZone * inject_Z (Z.of_nat (List.length zones)))))
         0 false false]) e.

Definition levelUp (e : Engine) : Engine :=
  notifyChange (updateDropTime (set_currentLevelTime 0 (set_level (level e + 1) e))).

Definition points_of (k : Kind) : Z :=
  match k with
  | apple => 100
  | pear => 150
  | orange => 200
  | bomb => 0
  end.

(** [handleCatch(item)]: the item is an object shared with [this.items]; the
    function returns its new contents together with the engine. *)
Definition handleCatch (it : Item) (e : Engine) : Item * Engine :=
  if Kind_eqb (type it) bomb then (it, gameOver reason_bomb e)
  else
    let it1 := set_caught true it in
    let points := points_of (type it1) in
    (it1, notifyChange (set_score (score e + points) e)).

(** [handleMiss(item)] does not touch the item. *)
Definition handleMiss (e : Engine) : Engine :=
  let e1 := notifyChange (set_missCount (missCount e + 1) e) in
  if (missCount e1 =? 1)%Z then e1
  else if (2 <=? missCount e1)%Z then gameOver reason_missed e1
  else e1.

Definition catchThreshold : Q := 0.85.
Definition missThreshold : Q := 1.0.

(** The body of the [forEach] in [checkCollisions], for one item. *)
Definition checkItem (it : Item) (e : Engine) : Item * Engine :=
  if caught it || processed it then (it, e)
  else if Qle_bool catchThreshold (y it) && Qltb (y it) missThreshold then
    if zone_is (zone it) (basketPosition e) then handleCatch it e else (it, e)
  else if Qle_bool missThreshold (y it) then
    let e1 := if negb (Kind_eqb (type it) bomb) then handleMiss e else e in
    (set_processed true it, e1)
  else (it, e).

(** [this.items.forEach(...)] of [checkCollisions]: the items are visited in
    order; the callback reads and writes the scalar fields of the engine and
    the visited item only. *)
Fixpoint forEach_checkItem (its : list Item) (e : Engine) : list Item * Engine :=
  match its with
  | [] => ([], e)
  | it :: rest =>
      let '(it', e1) := checkItem it e in
      let '(rest', e2) := forEach_checkItem rest e1 in
      (it' :: rest', e2)
  end.

Definition checkCollisions (e : Engine) : Engine :=
  let '(its, e1) := forEach_checkItem (items e) e in
  set_items its e1.

(** The steps of [update], in source order. *)

Definition deltaTime_of (timestamp : Q) (e : Engine) : Q :=
  (timestamp - lastTime e) / 1000.

(** 1. Level timer. *)
Definition update_levelTimer (deltaTime : Q) (e : Engine) : Engine :=
  let e1 := set_currentLevelTime (currentLevelTime e + deltaTime) e in
  if Qle_bool (levelDuration e1) (currentLevelTime e1) then levelUp e1 else e1.

(** The three draws a tick may consume, in the order of use. *)
Record Draws : Set := mkDraws { randType : Q; randZone : Q; randInterval : Q }.

(** 2. Spawn items. *)
Definition update_spawn (r : Draws) (timestamp : Q) (e : Engine) : Engine :=
  if Qltb (lastSpawnTime e + nextSpawnInterval e) timestamp
  then scheduleNextSpawn (randInterval r)
         (set_lastSpawnTime timestamp (spawnItem (randType r) (randZone r) e))
  else e.

(** 3. Move items. *)
Definition update_move (deltaTime : Q) (e : Engine) : Engine :=
  let dropSpeed := 1.0 / currentDropTime e in
  set_items (map (fun item => set_y (y item + dropSpeed * deltaTime) item) (items e)) e.

(** 5. Remove off-screen items. *)
Definition update_remove (e : Engine) : Engine :=
  set_items
    (filter (fun item => Qle_bool (y item) 1.2 && negb (caught item)) (items e)) e.

Definition update (r : Draws) (timestamp : Q) (e : Engine) : Engine :=
  if negb (isGameActive e) then e
  else
    let deltaTime := deltaTime_of timestamp e in
    let e1 := set_lastTime timestamp e in
    let e2 := update_levelTimer deltaTime e1 in
    let e3 := update_spawn r timestamp e2 in
    let e4 := update_move deltaTime e3 in
    let e5 := checkCollisions e4 in
    update_remove e5.

(** [now] is the value of [performance.now()], [rand] the draw of
    [scheduleNextSpawn]. *)
Definition start (now rand : Q) (e : Engine) : Engine :=
  set_lastTime now
    (scheduleNextSpawn rand (updateDropTime (set_isGameActive true (reset e)))).

Definition stop (e : Engine) : Engine := set_isGameActive false e.

(** [["LEFT", "CENTER", "RIGHT"].includes(poseLabel)], with the zone the
    label names. *)
Definition zone_of_label (poseLabel : string) : option Zone :=
  if String.eqb poseLabel "LEFT"%string then Some LEFT
  else if String.eqb poseLabel "CENTER"%string then Some CENTER
  else if String.eqb poseLabel "RIGHT"%string then Some RIGHT
  else None.

Definition setBasketPose (poseLabel : string) (e : Engine) : Engine :=
  match zone_of_label poseLabel with
  | Some z => set_basketPosition z e
  | None => e
  end.

Definition setScoreChangeCallback (cb : bool) (e : Engine) : Engine :=
  set_onScoreChange cb e.
Definition setGameEndCallback (cb : bool) (e : Engine) : Engine :=
  set_onGameEnd cb e.

(** ** Ticks, operations and reachable states *)

(** The engine in the middle of an active tick: after steps 1-2 and after
    steps 1-4 of [update]. *)
Definition tick_spawned (r : Draws) (timestamp : Q) (e : Engine) : Engine :=
  update_spawn r timestamp
    (update_levelTimer (deltaTime_of timestamp e) (set_lastTime timestamp e)).

Definition tick_resolved (r : Draws) (timestamp : Q) (e : Engine) : Engine :=
  checkCollisions (update_move (deltaTime_of timestamp e) (tick_spawned r timestamp e)).

(** The calls a host makes on an engine. *)
Inductive Op : Set :=
| OpStart (now rand : Q)
| OpStop
| OpSetBasketPose (poseLabel : string)
| OpUpdate (r : Draws) (timestamp : Q)
| OpSetScoreChangeCallback (cb : bool)
| OpSetGameEndCallback (cb : bool).

Definition step (op : Op) (e : Engine) : Engine :=
  match op with
  | OpStart now rand => start now rand e
  | OpStop => stop e
  | OpSetBasketPose l => setBasketPose l e
  | OpUpdate r t => update r t e
  | OpSetScoreChangeCallback cb => setScoreChangeCallback cb e
  | OpSetGameEndCallback cb => setGameEndCallback cb e
  end.

Definition is_start (op : Op) : bool :=
  match op with
  | OpStart _ _ => true
  | _ => false
  end.

(** [run ops e]: the calls [ops], first to last, on [e]. *)
Definition run (ops : list Op) (e : Engine) : Engine :=
  fold_left (fun e op => step op e) ops e.

(** The states an engine goes through, whatever the clock and the draws. *)
Inductive Reachable : Engine -> Prop :=
| Reachable_new : Reachable new_GameEngine
| Reachable_step : forall op e, Reachable e -> Reachable (step op e).

(** What a host that follows the interface passes: every draw is in [0, 1),
    as [Math.random()] gives it, and the clock values do not go back from
    [last], the previous one. *)
Definition draw_ok (x : Q) : bool := Qle_bool 0 x && Qltb x 1.

Definition draws_ok (r : Draws) : bool :=
  draw_ok (randType r) && draw_ok (randZone r) && draw_ok (randInterval r).

Fixpoint host_calls_ok (last : Q) (ops : list Op) : bool :=
  match ops with
  | [] => true
  | OpStart now rand :: rest =>
      Qle_bool last now && draw_ok rand && host_calls_ok now rest
  | OpUpdate r t :: rest =>
      Qle_bool last t && draws_ok r && host_calls_ok t rest
  | _ :: rest => host_calls_ok last rest
  end.

(** ** Observations *)

Definition is_GameEnd (c : Call) : bool :=
  match c with
  | GameEnd _ _ _ => true
  | ScoreChange _ _ _ => false
  end.

(** How many times [onGameEnd] was called. *)
Definition count_GameEnd (cs : list Call) : nat :=
  List.length (filter is_GameEnd cs).

(** The items [update] keeps are those that are neither below the screen nor
    caught, in the words of the specification. *)
Definition offscreen_or_caught (it : Item) : bool :=
  Qltb 1.2 (y it) || caught it.

(** Drop time as the specification gives it, as a function of the level. *)
Definition spec_currentDropTime (L : Z) : Q :=
  Qmax 0.5 (2.0 - (inject_Z L - 1) * 0.2).

(** ** Scenarios *)

(** A host with both callbacks set, started at clock 10000 ms. *)
Definition started : Engine :=
  start 10000 0.5
    (setGameEndCallback true (setScoreChangeCallback true new_GameEngine)).

(** Draws that spawn an apple in the left lane, and a bomb in the centre
    lane. *)
Definition draws_apple_left : Draws := mkDraws 0.3 0.1 0.5.
Definition draws_bomb_center : Draws := mkDraws 0.1 0.5 0.5.

(** Three frames, 1.6 s and 2.1 s apart, the basket staying in the centre:
    three apples fall past the bottom in the last one. *)
Definition slow_frames_three_apples : list Op :=
  [OpUpdate draws_apple_left 10001;
   OpUpdate draws_apple_left 11602;
   OpUpdate draws_apple_left 13702].

(** Two frames 1.71 s apart: two bombs are in the catch window of the basket's
    lane in the second one. *)
Definition slow_frames_two_bombs : list Op :=
  [OpUpdate draws_bomb_center 10001;
   OpUpdate draws_bomb_center 11711].

(** What a method leaves alone: the fields no callback of the collision pass
    writes. *)
Definition same_setup (e e' : Engine) : Prop :=
  level e' = level e /\ levelDuration e' = levelDuration e /\
  currentLevelTime e' = currentLevelTime e /\ baseDropTime e' = baseDropTime e /\
  currentDropTime e' = currentDropTime e /\ lastSpawnTime e' = lastSpawnTime e /\
  nextSpawnInterval e' = nextSpawnInterval e /\
  basketPosition e' = basketPosition e /\ lastTime e' = lastTime e /\
  onScoreChange e' = onScoreChange e /\ onGameEnd e' = onGameEnd e.

(** What one visit of the collision pass, or the whole pass, may do to the
    engine: the setup is kept, the counters only grow, an inactive engine
    stays inactive, and calls are only added. *)
Definition collision_frame (e e' : Engine) : Prop :=
  same_setup e e' /\ items e' = items e /\
  (score e <= score e')%Z /\ (missCount e <= missCount e')%Z /\
  (isGameActive e = false -> isGameActive e' = false) /\
  (exists cs, calls e' = calls e ++ cs).

(** A bomb falls in the basket's lane: the engine before the second frame,
    and at the resolution step of that frame (after the spawn and the
    motion). *)
Definition bomb_frame_before : Engine :=
  run [OpUpdate draws_bomb_center 10001] started.

Definition bomb_frame_at_resolution : Engine :=
  update_move (deltaTime_of 11711 bomb_frame_before)
    (tick_spawned draws_apple_left 11711 bomb_frame_before).

(** What holds of the engine between two calls. *)
Definition item_kept (it : Item) : Prop := y it <= 1.2 /\ caught it = false.

Definition Inv (e : Engine) : Prop :=
  Forall item_kept (items e) /\
  currentDropTime e == spec_currentDropTime (level e) /\
  (1 <= level e)%Z /\ (0 <= score e)%Z /\ (0 <= missCount e)%Z.

(** The items a collision pass catches, and the fruits it counts as missed,
    as tests on the item before the pass; [basket] is the basket's zone. *)
Definition in_catch_window (it : Item) : bool :=
  Qle_bool catchThreshold (y it) && Qltb (y it) missThreshold.

Definition is_catch (basket : Zone) (it : Item) : bool :=
  negb (caught it || processed it) && in_catch_window it
  && zone_is (zone it) basket.

Definition is_miss (it : Item) : bool :=
  negb (caught it || processed it) && negb (in_catch_window it)
  && Qle_bool missThreshold (y it) && negb (Kind_eqb (type it) bomb).

(** The points of the items of [l] that a pass catches. *)
Definition rewards (basket : Zone) (l : list Item) : Z :=
  fold_right Z.add 0%Z
    (map (fun it => points_of (type it)) (filter (is_catch basket) l)).

(** Items and engines used as examples. *)
Definition bomb_in_window : Item := mkItem bomb (Some CENTER) 0.9 false false.
Definition apple_in_window : Item := mkItem apple (Some CENTER) 0.9 false false.
Definition pear_in_window : Item := mkItem pear (Some CENTER) 0.9 false false.
Definition orange_in_window : Item := mkItem orange (Some CENTER) 0.9 false false.

Definition started_with (l : list Item) : Engine := set_items l started.

(** The engine after the first two of the three slow frames. *)
Definition two_apples_falling : Engine :=
  run [OpUpdate draws_apple_left 10001; OpUpdate draws_apple_left 11602] started.

(** ** Drawing *)

(** The calls [draw] makes on the canvas context, in order.  [ArcCircle x y r]
    is [ctx.arc(x, y, r, 0, Math.PI * 2)], the only form of [arc] in the
    source; an assignment to [strokeStyle] or [fillStyle] is a call too. *)
Inductive CanvasCall : Set :=
| SetStrokeStyle (style : string)
| SetFillStyle (style : string)
| BeginPath
| MoveTo (x y : Q)
| LineTo (x y : Q)
| Stroke
| FillRect (x y w h : Q)
| ArcCircle (x y radius : Q)
| Fill.

(** The [x] of a lane: [width / 2] unless the zone is ["LEFT"] or ["RIGHT"];
    the source computes it this way for the basket and for every item. *)
Definition laneX (width : Q) (z : option Zone) : Q :=
  match z with
  | Some LEFT => width / 6
  | Some CENTER => width / 2
  | Some RIGHT => width * 5 / 6
  | None => width / 2
  end.

Definition fillStyle_of (k : Kind) : string :=
  match k with
  | bomb => "black"
  | apple => "red"
  | pear => "yellow"
  | orange => "orange"
  end%string.

(** The body of the [forEach] in [draw]. *)
Definition draw_item (width height : Q) (item : Item) : list CanvasCall :=
  if caught item then []
  else
    let itemX := laneX width (zone item) in
    let itemY := y item * height in
    [BeginPath; SetFillStyle (fillStyle_of (type item));
     ArcCircle itemX itemY 15; Fill].

Definition draw (width height : Q) (e : Engine) : list CanvasCall :=
  if negb (isGameActive e) then []
  else
    let basketY := height * 0.9 in
    let basketX := laneX width (Some (basketPosition e)) in
    [SetStrokeStyle "rgba(255, 255, 255, 0.3)"; BeginPath;
     MoveTo (width / 3) 0; LineTo (width / 3) height;
     MoveTo (width * 2 / 3) 0; LineTo (width * 2 / 3) height;
     Stroke;
     SetFillStyle "rgba(0, 255, 0, 0.7)";
     FillRect (basketX - 30) (basketY - 10) 60 20]
    ++ flat_map (draw_item width height) (items e).

(** The circles among canvas calls, as centres. *)
Definition circles (cs : list CanvasCall) : list (Q * Q) :=
  flat_map (fun c => match c with ArcCircle x y _ => [(x, y)] | _ => [] end) cs.

(** ** More observations *)

(** The label the classifier gives for a zone. *)
Definition label_of_zone (z : Zone) : string :=
  match z with
  | LEFT => "LEFT"
  | CENTER => "CENTER"
  | RIGHT => "RIGHT"
  end%string.

Definition is_update (op : Op) : bool :=
  match op with
  | OpUpdate _ _ => true
  | _ => false
  end.

(** The item [spawnItem] appends for the two draws. *)
Definition spawned_item (randType randZone : Q) : Item :=
  mkItem (getRandomItemType randType)
    (array_get zones (Qfloor (randZone * inject_Z (Z.of_nat (List.length zones)))))
    0 false false.

(** The test of step 2 of [update], on the engine before the tick. *)
Definition spawn_due (timestamp : Q) (e : Engine) : bool :=
  Qltb (lastSpawnTime e + nextSpawnInterval e) timestamp.

(** What [onGameEnd], when set, tells of a step from [e] to [e']: either it
    was not called and the engine is as active as before, or it was called
    and the engine is inactive. *)
Definition end_tracked (e e' : Engine) : Prop :=
  onGameEnd e' = onGameEnd e /\
  (onGameEnd e = true ->
   (isGameActive e' = isGameActive e /\
    count_GameEnd (calls e') = count_GameEnd (calls e)) \/
   (isGameActive e' = false /\
    (count_GameEnd (calls e) < count_GameEnd (calls e'))%nat)).

(** More of what holds between two calls. *)
Definition Inv2 (e : Engine) : Prop :=
  levelDuration e = 20 /\ baseDropTime e = 2.0 /\
  currentLevelTime e < levelDuration e /\
  (exists n, score e = (50 * n)%Z) /\
  (isGameActive e = true -> (missCount e <= 1)%Z).

(** What a pass does to an item that it neither catches nor counts as a
    missed fruit: a bomb that has reached the bottom is marked processed. *)
Definition mark_passed_bomb (it : Item) : Item :=
  if negb (caught it || processed it) && Qle_bool missThreshold (y it)
     && Kind_eqb (type it) bomb
  then set_processed true it
  else it.

(** Splitting a [collision_frame] goal into its six parts. *)
Ltac frame_split :=
  unfold collision_frame;
  split; [|split; [|split; [|split; [|split]]]].

(** * Properties *)

(** ** Comparisons *)

Lemma Qltb_lt (a b : Q) : Qltb a b = true <-> a < b.
Proof.
  unfold Qltb. rewrite negb_true_iff. split; intro H.
  - apply Qnot_le_lt. intro Hle. apply Qle_bool_iff in Hle. congruence.
  - destruct (Qle_bool b a) eqn:E; [|reflexivity].
    apply Qle_bool_iff in E. exfalso. exact (Qlt_not_le _ _ H E).
Qed.

Lemma Qltb_ge (a b : Q) : Qltb a b = false <-> b <= a.
Proof.
  unfold Qltb. rewrite negb_false_iff. apply Qle_bool_iff.
Qed.

Lemma Qle_bool_gt (a b : Q) : Qle_bool a b = false <-> b < a.
Proof.
  rewrite <- Qltb_lt. unfold Qltb. rewrite negb_true_iff. tauto.
Qed.

Lemma Kind_eqb_eq (a b : Kind) : Kind_eqb a b = true <-> a = b.
Proof. destruct a, b; simpl; split; congruence. Qed.

Lemma Zone_eqb_eq (a b : Zone) : Zone_eqb a b = true <-> a = b.
Proof. destruct a, b; simpl; split; congruence. Qed.

Lemma zone_is_eq (z : option Zone) (b : Zone) : zone_is z b = true <-> z = Some b.
Proof.
  destruct z as [z|]; simpl.
  - rewrite Zone_eqb_eq. split; congruence.
  - split; congruence.
Qed.

(** ** Notifications *)

Lemma same_setup_refl e : same_setup e e.
Proof. unfold same_setup; tauto. Qed.

Lemma same_setup_trans e1 e2 e3 :
  same_setup e1 e2 -> same_setup e2 e3 -> same_setup e1 e3.
Proof. unfold same_setup; intuition congruence. Qed.

Lemma notifyChange_fields e :
  same_setup e (notifyChange e) /\
  isGameActive (notifyChange e) = isGameActive e /\
  score (notifyChange e) = score e /\ missCount (notifyChange e) = missCount e /\
  items (notifyChange e) = items e /\
  calls (notifyChange e) =
    calls e ++ (if onScoreChange e
                then [ScoreChange (score e) (level e) (missCount e)] else []).
Proof.
  unfold notifyChange, same_setup. destruct (onScoreChange e) eqn:E; simpl;
    rewrite ?app_nil_r; intuition congruence.
Qed.

Lemma gameOver_fields reason e :
  same_setup e (gameOver reason e) /\
  isGameActive (gameOver reason e) = false /\
  score (gameOver reason e) = score e /\
  missCount (gameOver reason e) = missCount e /\
  items (gameOver reason e) = items e /\
  calls (gameOver reason e) =
    calls e ++ (if onGameEnd e then [GameEnd (score e) (level e) reason] else []).
Proof.
  unfold gameOver, same_setup. simpl. destruct (onGameEnd e) eqn:E; simpl;
    rewrite ?app_nil_r; intuition congruence.
Qed.

Lemma handleMiss_fields e :
  same_setup e (handleMiss e) /\
  missCount (handleMiss e) = (missCount e + 1)%Z /\
  score (handleMiss e) = score e /\
  items (handleMiss e) = items e /\
  isGameActive (handleMiss e) =
    (if (2 <=? missCount e + 1)%Z then false else isGameActive e) /\
  calls (handleMiss e) =
    calls e
    ++ (if onScoreChange e
        then [ScoreChange (score e) (level e) (missCount e + 1)] else [])
    ++ (if (2 <=? missCount e + 1)%Z
        then (if onGameEnd e
              then [GameEnd (score e) (level e) reason_missed] else [])
        else []).
Proof.
  destruct (onScoreChange e) eqn:Es; destruct (onGameEnd e) eqn:Eg;
    destruct (missCount e + 1 =? 1)%Z eqn:E1;
    destruct (2 <=? missCount e + 1)%Z eqn:E2;
    try (apply Z.eqb_eq in E1; apply Z.leb_le in E2; lia);
    unfold handleMiss, notifyChange, gameOver, same_setup;
    repeat (cbn; rewrite ?Es, ?Eg, ?E1, ?E2);
    rewrite ?app_nil_r, <- ?app_assoc; cbn; intuition congruence.
Qed.

Lemma handleCatch_bomb it e :
  type it = bomb -> handleCatch it e = (it, gameOver reason_bomb e).
Proof. intro H. unfold handleCatch. rewrite H. reflexivity. Qed.

Lemma handleCatch_fruit it e :
  type it <> bomb ->
  handleCatch it e =
    (set_caught true it, notifyChange (set_score (score e + points_of (type it)) e)).
Proof.
  intro H. unfold handleCatch.
  destruct (Kind_eqb (type it) bomb) eqn:E.
  - apply Kind_eqb_eq in E. contradiction.
  - reflexivity.
Qed.

(** The cases of the [forEach] body. *)


Lemma checkItem_above it e :
  y it < 0.85 -> checkItem it e = (it, e).
Proof.
  intro H. unfold checkItem.
  destruct (caught it || processed it); [reflexivity|].
  assert (E1 : Qle_bool catchThreshold (y it) = false)
    by (apply Qle_bool_gt; exact H).
  assert (E2 : Qle_bool missThreshold (y it) = false).
  { apply Qle_bool_gt. unfold missThreshold. eapply Qlt_trans; [exact H|]. reflexivity. }
  rewrite E1, E2. reflexivity.
Qed.

Lemma checkItem_window it e :
  caught it = false -> processed it = false -> 0.85 <= y it -> y it < 1.0 ->
  checkItem it e =
    if zone_is (zone it) (basketPosition e) then handleCatch it e else (it, e).
Proof.
  intros Hc Hp H1 H2. unfold checkItem. rewrite Hc, Hp. simpl.
  assert (E1 : Qle_bool catchThreshold (y it) = true)
    by (apply Qle_bool_iff; exact H1).
  assert (E2 : Qltb (y it) missThreshold = true) by (apply Qltb_lt; exact H2).
  rewrite E1, E2. reflexivity.
Qed.

Lemma checkItem_past it e :
  caught it = false -> processed it = false -> 1.0 <= y it ->
  checkItem it e =
    (set_processed true it,
     if negb (Kind_eqb (type it) bomb) then handleMiss e else e).
Proof.
  intros Hc Hp H1. unfold checkItem. rewrite Hc, Hp. simpl.
  assert (E2 : Qltb (y it) missThreshold = false) by (apply Qltb_ge; exact H1).
  assert (E3 : Qle_bool missThreshold (y it) = true)
    by (apply Qle_bool_iff; exact H1).
  rewrite E2, E3, andb_false_r. reflexivity.
Qed.

(** Every item is in exactly one of the cases above. *)
Lemma item_cases it :
  (caught it = true \/ processed it = true) \/
  (caught it = false /\ processed it = false /\
     (y it < 0.85 \/ (0.85 <= y it /\ y it < 1.0) \/ 1.0 <= y it)).
Proof.
  destruct (caught it); [left; left; reflexivity|].
  destruct (processed it); [left; right; reflexivity|].
  right. split; [reflexivity|]. split; [reflexivity|].
  destruct (Qlt_le_dec (y it) 0.85) as [H|H]; [left; exact H|].
  destruct (Qlt_le_dec (y it) 1.0) as [H'|H']; [right; left; split; assumption|].
  right; right; exact H'.
Qed.

Lemma points_of_nonneg k : (0 <= points_of k)%Z.
Proof. destruct k; simpl; lia. Qed.

Lemma collision_frame_refl e : collision_frame e e.
Proof.
  frame_split; try apply same_setup_refl; try lia; auto.
  exists []. now rewrite app_nil_r.
Qed.

Lemma collision_frame_trans e1 e2 e3 :
  collision_frame e1 e2 -> collision_frame e2 e3 -> collision_frame e1 e3.
Proof.
  intros (S1 & I1 & A1 & M1 & G1 & c1 & C1) (S2 & I2 & A2 & M2 & G2 & c2 & C2).
  unfold collision_frame.
  split; [eapply same_setup_trans; eauto|].
  split; [congruence|].
  split; [lia|]. split; [lia|]. split; [auto|].
  exists (c1 ++ c2). rewrite C2, C1. now rewrite app_assoc.
Qed.

Lemma notifyChange_frame e : collision_frame e (notifyChange e).
Proof.
  destruct (notifyChange_fields e) as (S & A & Sc & M & I & C).
  frame_split; rewrite ?Sc, ?M, ?A, ?I; try lia; auto.
  rewrite C. eexists; reflexivity.
Qed.

Lemma gameOver_frame reason e : collision_frame e (gameOver reason e).
Proof.
  destruct (gameOver_fields reason e) as (S & A & Sc & M & I & C).
  frame_split; rewrite ?Sc, ?M, ?A, ?I; try lia; auto.
  rewrite C. eexists; reflexivity.
Qed.

Lemma handleMiss_frame e : collision_frame e (handleMiss e).
Proof.
  destruct (handleMiss_fields e) as (S & M & Sc & I & A & C).
  frame_split; rewrite ?Sc, ?M, ?A, ?I; try lia; auto.
  - intro H. rewrite H. now destruct (2 <=? missCount e + 1)%Z.
  - rewrite C. eexists; reflexivity.
Qed.

Lemma handleCatch_frame it e : collision_frame e (snd (handleCatch it e)).
Proof.
  unfold handleCatch. destruct (Kind_eqb (type it) bomb); simpl.
  - apply gameOver_frame.
  - eapply collision_frame_trans; [|apply notifyChange_frame].
    pose proof (points_of_nonneg (type it)).
    frame_split; simpl; try lia; auto.
    + unfold same_setup; simpl; tauto.
    + exists []. now rewrite app_nil_r.
Qed.

Lemma checkItem_frame it e : collision_frame e (snd (checkItem it e)).
Proof.
  unfold checkItem.
  destruct (caught it || processed it); [apply collision_frame_refl|].
  destruct (Qle_bool catchThreshold (y it) && Qltb (y it) missThreshold).
  - destruct (zone_is (zone it) (basketPosition e));
      [apply handleCatch_frame | apply collision_frame_refl].
  - destruct (Qle_bool missThreshold (y it)); [|apply collision_frame_refl].
    simpl. destruct (negb (Kind_eqb (type it) bomb));
      [apply handleMiss_frame | apply collision_frame_refl].
Qed.


(** ** The collision pass over the list *)

Lemma forEach_checkItem_app l1 l2 e :
  forEach_checkItem (l1 ++ l2) e =
    (fst (forEach_checkItem l1 e)
       ++ fst (forEach_checkItem l2 (snd (forEach_checkItem l1 e))),
     snd (forEach_checkItem l2 (snd (forEach_checkItem l1 e)))).
Proof.
  revert e. induction l1 as [|a l1 IH]; intro e; simpl.
  - now destruct (forEach_checkItem l2 e).
  - destruct (checkItem a e) as [a' e1]. rewrite IH.
    destruct (forEach_checkItem l1 e1) as [l1' e2]. simpl.
    reflexivity.
Qed.

Lemma forEach_checkItem_cons it l e :
  forEach_checkItem (it :: l) e =
    (fst (checkItem it e) :: fst (forEach_checkItem l (snd (checkItem it e))),
     snd (forEach_checkItem l (snd (checkItem it e)))).
Proof.
  simpl. destruct (checkItem it e) as [a' e1]. simpl.
  now destruct (forEach_checkItem l e1).
Qed.

Lemma forEach_checkItem_length l e :
  List.length (fst (forEach_checkItem l e)) = List.length l.
Proof.
  revert e. induction l as [|a l IH]; intro e; [reflexivity|].
  rewrite forEach_checkItem_cons. simpl. now rewrite IH.
Qed.

Lemma forEach_checkItem_frame l e :
  collision_frame e (snd (forEach_checkItem l e)).
Proof.
  revert e. induction l as [|a l IH]; intro e.
  - apply collision_frame_refl.
  - rewrite forEach_checkItem_cons. simpl.
    eapply collision_frame_trans; [apply checkItem_frame | apply IH].
Qed.

Lemma checkCollisions_eq e :
  checkCollisions e =
    set_items (fst (forEach_checkItem (items e) e))
      (snd (forEach_checkItem (items e) e)).
Proof.
  unfold checkCollisions. now destruct (forEach_checkItem (items e) e).
Qed.

Lemma update_inactive r t e : isGameActive e = false -> update r t e = e.
Proof. intro H. unfold update. now rewrite H. Qed.

Lemma update_active r t e :
  isGameActive e = true -> update r t e = update_remove (tick_resolved r t e).
Proof. intro H. unfold update. now rewrite H. Qed.

(** ** Bomb hits *)

(** C1, as amended: for every bomb that is neither caught nor processed,
    whose zone is the basket's and whose [y] is in [0.85, 1.0) when
    [checkCollisions] runs, the pass leaves the engine inactive, so that
    later [update] calls do nothing, and calls [onGameEnd], when set, with the
    bomb message; the item itself is left as it was: it is not marked
    caught. *)
Theorem bomb_hit_ends_game :
  forall e pre it post,
    items e = pre ++ it :: post ->
    type it = bomb -> zone it = Some (basketPosition e) ->
    caught it = false -> processed it = false ->
    0.85 <= y it -> y it < 1.0 ->
    isGameActive (checkCollisions e) = false /\
    (onGameEnd e = true ->
       exists s, In (GameEnd s (level e) reason_bomb) (calls (checkCollisions e))) /\
    nth_error (items (checkCollisions e)) (List.length pre) = Some it /\
    (forall r t, update r t (checkCollisions e) = checkCollisions e).
Proof.
  intros e pre it post Hi Ht Hz Hc Hp Hlo Hhi.
  rewrite checkCollisions_eq, Hi, forEach_checkItem_app, forEach_checkItem_cons.
  cbn [fst snd].
  set (e1 := snd (forEach_checkItem pre e)).
  destruct (forEach_checkItem_frame pre e) as (S1 & _).
  fold e1 in S1.
  destruct S1 as (Hl & _ & _ & _ & _ & _ & _ & Hb & _ & _ & Hg).
  assert (Hck : checkItem it e1 = (it, gameOver reason_bomb e1)).
  { rewrite checkItem_window by assumption.
    assert (Z : zone_is (zone it) (basketPosition e1) = true)
      by (apply zone_is_eq; congruence).
    rewrite Z. now apply handleCatch_bomb. }
  rewrite Hck. cbn [fst snd].
  set (e2 := snd (forEach_checkItem post (gameOver reason_bomb e1))).
  destruct (forEach_checkItem_frame post (gameOver reason_bomb e1))
    as (_ & _ & _ & _ & Ha & cs & Hcs).
  fold e2 in Ha, Hcs.
  destruct (gameOver_fields reason_bomb e1) as (_ & Ga & _ & _ & _ & Gc).
  assert (A2 : isGameActive e2 = false) by auto.
  split; [exact A2|]. split; [|split].
  - intro Hon. exists (score e1). cbn [calls set_items].
    rewrite Hcs, Gc, Hg, Hon, Hl. apply in_or_app. left.
    apply in_or_app. right. left. reflexivity.
  - cbn [items set_items]. rewrite nth_error_app2.
    + rewrite forEach_checkItem_length, Nat.sub_diag. reflexivity.
    + rewrite forEach_checkItem_length. apply Nat.le_refl.
  - intros r t. apply update_inactive. exact A2.
Qed.

Lemma bomb_hit_ends_game_witness :
  isGameActive (checkCollisions (started_with [bomb_in_window])) = false /\
  (onGameEnd (started_with [bomb_in_window]) = true ->
     exists s,
       In (GameEnd s (level (started_with [bomb_in_window])) reason_bomb)
          (calls (checkCollisions (started_with [bomb_in_window])))) /\
  nth_error (items (checkCollisions (started_with [bomb_in_window]))) 0
  = Some bomb_in_window /\
  (forall r t,
     update r t (checkCollisions (started_with [bomb_in_window]))
     = checkCollisions (started_with [bomb_in_window])).
Proof.
  apply (bomb_hit_ends_game (started_with [bomb_in_window]) [] bomb_in_window []).
  - reflexivity.
  - reflexivity.
  - reflexivity.
  - reflexivity.
  - reflexivity.
  - unfold Qle; simpl; lia.
  - unfold Qlt; simpl; lia.
Defined.

(** C1 as stated fails: in the second frame of this run the bomb is in the
    catch window of the basket's lane, the game ends, and the bomb is still
    not marked caught after the collision pass. *)
Lemma bomb_hit_item_not_marked_caught :
  exists it,
    hd_error (items bomb_frame_at_resolution) = Some it /\
    type it = bomb /\
    zone it = Some (basketPosition bomb_frame_at_resolution) /\
    0.85 <= y it /\ y it < 1.0 /\
    isGameActive (checkCollisions bomb_frame_at_resolution) = false /\
    hd_error (items (checkCollisions bomb_frame_at_resolution)) = Some it /\
    caught it <> true.
Proof.
  eexists. split; [vm_compute; reflexivity|].
  repeat split; try (vm_compute; congruence).
Qed.

(** ** Drop time *)

Lemma spec_currentDropTime_floor L : 0.5 <= spec_currentDropTime L.
Proof. unfold spec_currentDropTime. apply Q.le_max_l. Qed.

Lemma spec_currentDropTime_ceiling L :
  (1 <= L)%Z -> spec_currentDropTime L <= 2.0.
Proof.
  intro H. unfold spec_currentDropTime. apply Q.max_lub.
  - unfold Qle; simpl; lia.
  - assert (H1 : inject_Z 1 <= inject_Z L) by (rewrite <- Zle_Qle; exact H).
    change (inject_Z 1) with 1 in H1. lra.
Qed.

Lemma spec_currentDropTime_antitone L1 L2 :
  (L1 <= L2)%Z -> spec_currentDropTime L2 <= spec_currentDropTime L1.
Proof.
  intro H. unfold spec_currentDropTime. apply Q.max_le_compat_l.
  assert (H1 : inject_Z L1 <= inject_Z L2) by (rewrite <- Zle_Qle; exact H).
  lra.
Qed.

Lemma spec_currentDropTime_level1 : spec_currentDropTime 1 == 2.0.
Proof. reflexivity. Qed.

(** From level 9 on the floor is reached. *)
Lemma spec_currentDropTime_floor_reached L :
  (9 <= L)%Z -> spec_currentDropTime L == 0.5.
Proof.
  intro H. unfold spec_currentDropTime. apply Q.max_l.
  assert (H1 : inject_Z 9 <= inject_Z L) by (rewrite <- Zle_Qle; exact H).
  change (inject_Z 9) with 9 in H1. lra.
Qed.

Lemma updateDropTime_spec e :
  currentDropTime (updateDropTime e) = spec_currentDropTime (level e).
Proof. reflexivity. Qed.

Lemma levelUp_fields e :
  level (levelUp e) = (level e + 1)%Z /\
  currentLevelTime (levelUp e) = 0 /\
  currentDropTime (levelUp e) = spec_currentDropTime (level e + 1) /\
  isGameActive (levelUp e) = isGameActive e /\
  score (levelUp e) = score e /\ missCount (levelUp e) = missCount e /\
  items (levelUp e) = items e /\
  lastSpawnTime (levelUp e) = lastSpawnTime e /\
  nextSpawnInterval (levelUp e) = nextSpawnInterval e /\
  calls (levelUp e) =
    calls e ++ (if onScoreChange e
                then [ScoreChange (score e) (level e + 1) (missCount e)] else []).
Proof.
  unfold levelUp, notifyChange. cbn.
  destruct (onScoreChange e); cbn; rewrite ?app_nil_r; repeat split; reflexivity.
Qed.

(** Steps 1 and 2 of a tick: the level goes up by one or stays, the drop time
    follows it, and at most one item is appended. *)
Lemma tick_spawned_fields r t e :
  let e' := tick_spawned r t e in
  isGameActive e' = isGameActive e /\ score e' = score e /\
  missCount e' = missCount e /\ basketPosition e' = basketPosition e /\
  ((level e' = level e /\ currentDropTime e' = currentDropTime e) \/
   (level e' = (level e + 1)%Z /\
    currentDropTime e' = spec_currentDropTime (level e + 1))) /\
  (items e' = items e \/
   exists k z, items e' = items e ++ [mkItem k z 0 false false]).
Proof.
  unfold tick_spawned, update_spawn, update_levelTimer.
  set (e1 := set_currentLevelTime _ _).
  assert (F1 : isGameActive e1 = isGameActive e /\ score e1 = score e /\
               missCount e1 = missCount e /\
               basketPosition e1 = basketPosition e /\
               level e1 = level e /\ currentDropTime e1 = currentDropTime e /\
               items e1 = items e) by (unfold e1; cbn; tauto).
  destruct F1 as (A1 & S1 & M1 & B1 & L1 & D1 & I1).
  set (e2 := if Qle_bool (levelDuration e1) (currentLevelTime e1)
             then levelUp e1 else e1).
  assert (F2 : isGameActive e2 = isGameActive e /\ score e2 = score e /\
               missCount e2 = missCount e /\
               basketPosition e2 = basketPosition e /\
               ((level e2 = level e /\ currentDropTime e2 = currentDropTime e) \/
                (level e2 = (level e + 1)%Z /\
                 currentDropTime e2 = spec_currentDropTime (level e + 1))) /\
               items e2 = items e).
  { unfold e2. destruct (Qle_bool (levelDuration e1) (currentLevelTime e1)).
    - destruct (levelUp_fields e1) as (L & _ & D & A & S & M & I & _).
      rewrite L, D, A, S, M, I, L1.
      repeat split; auto.
      rewrite <- B1. unfold levelUp, notifyChange.
      destruct (onScoreChange _); reflexivity.
    - repeat split; auto. }
  destruct F2 as (A2 & S2 & M2 & B2 & LD2 & I2).
  destruct (Qltb (lastSpawnTime e2 + nextSpawnInterval e2) t);
    unfold scheduleNextSpawn, spawnItem; cbn;
    repeat split; auto.
  right. rewrite I2. eexists _, _. reflexivity.
Qed.

(** ** One tick *)

Lemma checkCollisions_fields e :
  same_setup e (checkCollisions e) /\
  (score e <= score (checkCollisions e))%Z /\
  (missCount e <= missCount (checkCollisions e))%Z /\
  (isGameActive e = false -> isGameActive (checkCollisions e) = false) /\
  (exists cs, calls (checkCollisions e) = calls e ++ cs) /\
  items (checkCollisions e) = fst (forEach_checkItem (items e) e).
Proof.
  rewrite checkCollisions_eq.
  destruct (forEach_checkItem_frame (items e) e) as (S & _ & Sc & M & A & C).
  repeat split; try apply S; auto.
Qed.


Lemma update_remove_kept e : Forall item_kept (items (update_remove e)).
Proof.
  unfold update_remove. cbn [items set_items].
  apply Forall_forall. intros it H. apply filter_In in H.
  destruct H as (_ & H). apply andb_true_iff in H. destruct H as (H1 & H2).
  split.
  - apply Qle_bool_iff. exact H1.
  - now apply negb_true_iff.
Qed.

Lemma update_fields r t e :
  isGameActive e = true ->
  let e' := update r t e in
  ((level e' = level e /\ currentDropTime e' = currentDropTime e) \/
   (level e' = (level e + 1)%Z /\
    currentDropTime e' = spec_currentDropTime (level e + 1))) /\
  (score e <= score e')%Z /\ (missCount e <= missCount e')%Z /\
  basketPosition e' = basketPosition e /\
  Forall item_kept (items e').
Proof.
  intro Ha. cbv zeta. rewrite (update_active r t e Ha).
  split; [|split; [|split; [|split]]]; try apply update_remove_kept.
  all: unfold update_remove, tick_resolved; cbn [level currentDropTime score
    missCount basketPosition set_items].
  all: set (em := update_move _ _).
  all: destruct (checkCollisions_fields em) as (S & Sc & M & _ & _ & _).
  all: destruct S as (Hl & _ & _ & _ & Hd & _ & _ & Hb & _).
  all: destruct (tick_spawned_fields r t e) as (_ & S0 & M0 & B0 & LD & _).
  all: assert (Em : level em = level (tick_spawned r t e) /\
                    currentDropTime em = currentDropTime (tick_spawned r t e) /\
                    score em = score (tick_spawned r t e) /\
                    missCount em = missCount (tick_spawned r t e) /\
                    basketPosition em = basketPosition (tick_spawned r t e))
         by (unfold em, update_move; cbn; tauto).
  all: destruct Em as (E1 & E2 & E3 & E4 & E5).
  - rewrite Hl, Hd, E1, E2. exact LD.
  - rewrite <- S0, <- E3. exact Sc.
  - rewrite <- M0, <- E4. exact M.
  - rewrite Hb, E5. exact B0.
Qed.

(** ** Invariant of the reachable states *)

Lemma Inv_new : Inv new_GameEngine.
Proof.
  unfold Inv. cbn. repeat split; try lia; try constructor.
Qed.

Lemma Inv_start now rand e : Inv (start now rand e).
Proof.
  unfold Inv. cbn. repeat split; try lia; try constructor.
Qed.

Lemma Inv_step op e : Inv e -> Inv (step op e).
Proof.
  intros (Hi & Hd & Hl & Hs & Hm). destruct op; cbn [step].
  - apply Inv_start.
  - unfold Inv, stop. cbn. repeat split; auto.
  - unfold setBasketPose. destruct (zone_of_label poseLabel);
      unfold Inv; cbn; repeat split; auto.
  - destruct (isGameActive e) eqn:Ha.
    + destruct (update_fields r timestamp e Ha) as (LD & Sc & M & _ & K).
      unfold Inv. repeat split; try lia; auto.
      destruct LD as [(L & D) | (L & D)]; rewrite L, D;
        [exact Hd | reflexivity].
    + rewrite update_inactive by exact Ha. unfold Inv. repeat split; auto.
  - unfold Inv; cbn; repeat split; auto.
  - unfold Inv; cbn; repeat split; auto.
Qed.

Lemma Reachable_Inv e : Reachable e -> Inv e.
Proof.
  induction 1 as [|op e _ IH]; [apply Inv_new | now apply Inv_step].
Qed.

Lemma Reachable_run ops e : Reachable e -> Reachable (run ops e).
Proof.
  revert e. induction ops as [|op ops IH]; intros e H; [exact H|].
  simpl. apply IH. now constructor.
Qed.

Lemma Reachable_started : Reachable started.
Proof.
  unfold started.
  apply (Reachable_step (OpStart 10000 0.5)).
  apply (Reachable_step (OpSetGameEndCallback true)).
  apply (Reachable_step (OpSetScoreChangeCallback true)).
  constructor.
Qed.

Lemma Inv_dropTime e :
  Inv e -> 0.5 <= currentDropTime e /\ currentDropTime e <= 2.0.
Proof.
  intros (_ & Hd & Hl & _). rewrite Hd. split.
  - apply spec_currentDropTime_floor.
  - now apply spec_currentDropTime_ceiling.
Qed.

(** ** Counting catches and misses *)

Lemma checkItem_score it e :
  score (snd (checkItem it e)) =
    (score e + if is_catch (basketPosition e) it then points_of (type it) else 0)%Z.
Proof.
  unfold checkItem, is_catch, in_catch_window.
  destruct (caught it || processed it); cbn [negb andb snd]; [lia|].
  destruct (Qle_bool catchThreshold (y it) && Qltb (y it) missThreshold);
    cbn [andb].
  - destruct (zone_is (zone it) (basketPosition e)); cbn [snd]; [|lia].
    unfold handleCatch. destruct (Kind_eqb (type it) bomb) eqn:E; cbn [snd].
    + apply Kind_eqb_eq in E. rewrite E. cbn [points_of].
      destruct (gameOver_fields reason_bomb e) as (_ & _ & S & _). lia.
    + destruct (notifyChange_fields
                  (set_score (score e + points_of (type (set_caught true it))) e))
        as (_ & _ & S & _).
      rewrite S. reflexivity.
  - destruct (Qle_bool missThreshold (y it)); cbn [snd]; [|lia].
    destruct (negb (Kind_eqb (type it) bomb)); [|lia].
    destruct (handleMiss_fields e) as (_ & _ & S & _). lia.
Qed.

Lemma checkItem_missCount it e :
  missCount (snd (checkItem it e)) =
    (missCount e + if is_miss it then 1 else 0)%Z.
Proof.
  unfold checkItem, is_miss, in_catch_window.
  destruct (caught it || processed it); cbn [negb andb snd]; [lia|].
  destruct (Qle_bool catchThreshold (y it) && Qltb (y it) missThreshold);
    cbn [andb negb].
  - destruct (zone_is (zone it) (basketPosition e)); cbn [snd]; [|lia].
    unfold handleCatch. destruct (Kind_eqb (type it) bomb); cbn [snd].
    + destruct (gameOver_fields reason_bomb e) as (_ & _ & _ & M & _). lia.
    + destruct (notifyChange_fields
                  (set_score (score e + points_of (type (set_caught true it))) e))
        as (_ & _ & _ & M & _).
      rewrite M. cbn. lia.
  - destruct (Qle_bool missThreshold (y it)); cbn [snd andb]; [|lia].
    destruct (negb (Kind_eqb (type it) bomb)); [|lia].
    destruct (handleMiss_fields e) as (_ & M & _). lia.
Qed.

Lemma forEach_checkItem_score l e :
  score (snd (forEach_checkItem l e)) = (score e + rewards (basketPosition e) l)%Z.
Proof.
  revert e. induction l as [|a l IH]; intro e.
  - unfold rewards. cbn. lia.
  - rewrite forEach_checkItem_cons. cbn [snd]. rewrite IH, checkItem_score.
    destruct (checkItem_frame a e) as (S & _).
    destruct S as (_ & _ & _ & _ & _ & _ & _ & Hb & _). rewrite Hb.
    unfold rewards. cbn [filter].
    destruct (is_catch (basketPosition e) a); cbn [map fold_right]; lia.
Qed.


Lemma rewards_nonneg b l : (0 <= rewards b l)%Z.
Proof.
  unfold rewards. induction (filter (is_catch b) l) as [|a l' IH]; cbn; [lia|].
  pose proof (points_of_nonneg (type a)). lia.
Qed.

(** The score after an active tick: the score before, plus the points of the
    items caught at the resolution step. *)
Lemma update_score r t e :
  isGameActive e = true ->
  score (update r t e) =
    (score e +
     rewards (basketPosition e)
       (items (update_move (deltaTime_of t e) (tick_spawned r t e))))%Z.
Proof.
  intro Ha. rewrite (update_active r t e Ha).
  unfold update_remove, tick_resolved. cbn [score set_items].
  rewrite checkCollisions_eq. cbn [score set_items].
  rewrite forEach_checkItem_score.
  destruct (tick_spawned_fields r t e) as (_ & S0 & _ & B0 & _).
  unfold update_move. cbn [score basketPosition set_items items].
  now rewrite S0, B0.
Qed.



(** ** Game over more than once *)

(** C2 fails on the code: in one session (no [start] among the calls, the
    clock going forward, the draws in [0, 1)) two frames 1.71 s apart put two
    bombs in the catch window of the basket's lane in the same tick, and
    [onGameEnd] is called twice in that tick. *)
Theorem two_bombs_call_onGameEnd_twice :
  forallb (fun op => negb (is_start op)) slow_frames_two_bombs = true /\
  host_calls_ok (lastTime started) slow_frames_two_bombs = true /\
  Reachable (run slow_frames_two_bombs started) /\
  count_GameEnd (calls started) = 0%nat /\
  count_GameEnd (calls (run slow_frames_two_bombs started)) = 2%nat.
Proof.
  split; [reflexivity|]. split; [reflexivity|].
  split; [apply Reachable_run, Reachable_started|].
  split; vm_compute; reflexivity.
Qed.

(** C3 fails on the code: three frames, 1.6 s and 2.1 s apart, reach a state
    with [missCount] equal to 3: the three apples on screen all pass [y = 1.0]
    in the last tick, the second miss ends the game and the third is still
    counted (and ends it again). *)
Theorem three_apples_missCount_3 :
  host_calls_ok (lastTime started) slow_frames_three_apples = true /\
  Reachable (run slow_frames_three_apples started) /\
  missCount (run slow_frames_three_apples started) = 3%Z /\
  isGameActive (run slow_frames_three_apples started) = false /\
  count_GameEnd (calls (run slow_frames_three_apples started)) = 2%nat.
Proof.
  split; [reflexivity|].
  split; [apply Reachable_run, Reachable_started|].
  repeat split; vm_compute; reflexivity.
Qed.

(** ** Misses *)



(** ** Drop time and level *)

(** C5: in every reachable state the drop time is
    [max(0.5, 2.0 - (level - 1) * 0.2)] for the current level, and [levelUp]
    sets it to that value for the new level; as a function of the level
    [L >= 1] this value does not increase with [L] and lies in
    [0.5, 2.0]. *)
Theorem dropTime_follows_level :
  forall e L1 L2,
    Reachable e -> (1 <= L1)%Z -> (L1 <= L2)%Z ->
    currentDropTime e == spec_currentDropTime (level e) /\
    (1 <= level e)%Z /\
    currentDropTime (updateDropTime e) = spec_currentDropTime (level e) /\
    level (levelUp e) = (level e + 1)%Z /\
    currentDropTime (levelUp e) = spec_currentDropTime (level e + 1) /\
    spec_currentDropTime L2 <= spec_currentDropTime L1 /\
    0.5 <= spec_currentDropTime L1 /\ spec_currentDropTime L1 <= 2.0.
Proof.
  intros e L1 L2 Hr H1 H12.
  destruct (Reachable_Inv e Hr) as (_ & Hd & Hl & _).
  destruct (levelUp_fields e) as (L & _ & D & _).
  split; [exact Hd|]. split; [exact Hl|]. split; [reflexivity|].
  split; [exact L|]. split; [exact D|].
  split; [now apply spec_currentDropTime_antitone|].
  split; [apply spec_currentDropTime_floor|].
  now apply spec_currentDropTime_ceiling.
Qed.

Lemma dropTime_follows_level_witness :
  currentDropTime started == spec_currentDropTime (level started) /\
  spec_currentDropTime 5 <= spec_currentDropTime 2 /\
  0.5 <= spec_currentDropTime 2 /\ spec_currentDropTime 2 <= 2.0.
Proof.
  destruct (dropTime_follows_level started 2 5) as (D & _ & _ & _ & _ & M & Lo & Hi).
  - exact Reachable_started.
  - lia.
  - lia.
  - repeat split; assumption.
Defined.

(** ** Motion *)







(** ** Catches and score *)

Lemma is_catch_true b it :
  is_catch b it = true ->
  caught it = false /\ processed it = false /\
  0.85 <= y it /\ y it < 1.0 /\ zone it = Some b.
Proof.
  unfold is_catch, in_catch_window. intro H.
  apply andb_true_iff in H. destruct H as (H & Hz).
  apply andb_true_iff in H. destruct H as (Hi & Hw).
  apply andb_true_iff in Hw. destruct Hw as (H1 & H2).
  apply negb_true_iff, orb_false_iff in Hi. destruct Hi as (Hc & Hp).
  repeat split; auto.
  - now apply Qle_bool_iff in H1.
  - now apply Qltb_lt in H2.
  - now apply zone_is_eq.
Qed.

Lemma checkItem_caught it e :
  caught (fst (checkItem it e)) =
    caught it || (is_catch (basketPosition e) it && negb (Kind_eqb (type it) bomb)).
Proof.
  unfold checkItem, is_catch, in_catch_window, handleCatch.
  destruct (caught it) eqn:Ec; cbn [orb negb andb fst].
  - rewrite Ec. reflexivity.
  - destruct (processed it) eqn:Ep; cbn [orb negb andb fst]; [now rewrite Ec|].
    destruct (Qle_bool catchThreshold (y it) && Qltb (y it) missThreshold);
      cbn [andb].
    + destruct (zone_is (zone it) (basketPosition e)); cbn [fst andb];
        [|now rewrite Ec].
      destruct (Kind_eqb (type it) bomb); cbn [fst negb]; [now rewrite Ec|].
      reflexivity.
    + destruct (Qle_bool missThreshold (y it)); cbn; now rewrite Ec.
Qed.

Lemma is_catch_intro b it :
  caught it = false -> processed it = false ->
  0.85 <= y it -> y it < 1.0 -> zone it = Some b ->
  is_catch b it = true.
Proof.
  intros Hc Hp Hlo Hhi Hz. unfold is_catch, in_catch_window.
  rewrite Hc, Hp. cbn [orb negb andb].
  assert (E1 : Qle_bool catchThreshold (y it) = true)
    by (apply Qle_bool_iff; exact Hlo).
  assert (E2 : Qltb (y it) missThreshold = true) by (apply Qltb_lt; exact Hhi).
  assert (E3 : zone_is (zone it) b = true) by (apply zone_is_eq; exact Hz).
  rewrite E1, E2, E3. reflexivity.
Qed.

(** C7: a visit of [checkCollisions] to an item either leaves the score and
    the item's [caught] flag as they are, or catches the item: the flag goes
    from false to true, the item's zone is the basket's, its [y] is in
    [0.85, 1.0), and the score goes up by exactly 100 for an apple, 150 for
    a pear, 200 for an orange.  Conversely an uncaught, unprocessed item in
    the window of the basket's lane is caught with that increment when it is
    a fruit, and neither caught nor scored when it is a bomb.  The score at
    the end of an active tick is the score before it plus the points of the
    items caught at its resolution step, 100, 150 and 200 by kind: nothing
    else adds to the score. *)
Theorem score_changes_by_catch_reward :
  forall it e it' e',
    checkItem it e = (it', e') ->
    ((caught it' = caught it /\ score e' = score e) \/
     (caught it = false /\ caught it' = true /\
      zone it = Some (basketPosition e) /\ 0.85 <= y it /\ y it < 1.0 /\
      ((type it = apple /\ score e' = (score e + 100)%Z) \/
       (type it = pear /\ score e' = (score e + 150)%Z) \/
       (type it = orange /\ score e' = (score e + 200)%Z)))) /\
    (score e' <> score e ->
       caught it = false /\ caught it' = true /\
       zone it = Some (basketPosition e) /\ 0.85 <= y it /\ y it < 1.0) /\
    (caught it = false -> caught it' = true ->
       zone it = Some (basketPosition e) /\ 0.85 <= y it /\ y it < 1.0 /\
       ((type it = apple /\ score e' = (score e + 100)%Z) \/
        (type it = pear /\ score e' = (score e + 150)%Z) \/
        (type it = orange /\ score e' = (score e + 200)%Z))) /\
    (caught it = false -> processed it = false ->
     zone it = Some (basketPosition e) -> 0.85 <= y it -> y it < 1.0 ->
       (type it = apple -> caught it' = true /\ score e' = (score e + 100)%Z) /\
       (type it = pear -> caught it' = true /\ score e' = (score e + 150)%Z) /\
       (type it = orange -> caught it' = true /\ score e' = (score e + 200)%Z) /\
       (type it = bomb -> caught it' = false /\ score e' = score e)) /\
    (forall r t e0,
       isGameActive e0 = true ->
       score (update r t e0) =
         (score e0 +
          rewards (basketPosition e0)
            (items (update_move (deltaTime_of t e0) (tick_spawned r t e0))))%Z) /\
    (points_of apple = 100 /\ points_of pear = 150 /\
     points_of orange = 200 /\ points_of bomb = 0)%Z.
Proof.
  intros it e it' e' H.
  pose proof (checkItem_score it e) as Hs.
  pose proof (checkItem_caught it e) as Hc.
  rewrite H in Hs, Hc. cbn [fst snd] in Hs, Hc.
  assert (Main :
    (caught it' = caught it /\ score e' = score e) \/
    (caught it = false /\ caught it' = true /\
     zone it = Some (basketPosition e) /\ 0.85 <= y it /\ y it < 1.0 /\
     ((type it = apple /\ score e' = (score e + 100)%Z) \/
      (type it = pear /\ score e' = (score e + 150)%Z) \/
      (type it = orange /\ score e' = (score e + 200)%Z)))).
  { destruct (is_catch (basketPosition e) it) eqn:E.
    - destruct (is_catch_true _ _ E) as (C0 & P0 & Lo & Hi & Z).
      rewrite C0 in Hc. cbn [orb andb] in Hc.
      destruct (type it) eqn:T; cbn [points_of Kind_eqb negb] in Hs, Hc.
      + right. repeat split; auto.
      + right. repeat split; auto.
      + right. repeat split; auto.
      + left. split; [congruence | lia].
    - left. cbn [andb] in Hc. rewrite orb_false_r in Hc. split; [exact Hc | lia]. }
  split; [exact Main|]. split; [|split; [|split; [|split]]].
  - intro Hne. destruct Main as [(_ & S) | (C0 & C1 & Z & Lo & Hi & _)];
      [contradiction|]. repeat split; assumption.
  - intros C0 C1. destruct Main as [(C & _) | (_ & _ & Z & Lo & Hi & R)];
      [congruence|]. repeat split; assumption.
  - intros C0 P0 Z Lo Hi.
    pose proof (is_catch_intro _ _ C0 P0 Lo Hi Z) as E.
    rewrite E in Hs, Hc. rewrite C0 in Hc. cbn [orb andb] in Hc.
    split; [|split; [|split]]; intro T; rewrite T in Hs, Hc;
      cbn [points_of Kind_eqb negb] in Hs, Hc; (split; [exact Hc | lia]).
  - intros r t e0. apply update_score.
  - repeat split.
Qed.

Lemma score_changes_by_catch_reward_witness :
  (score (snd (checkItem apple_in_window started)) = 100%Z /\
   score (snd (checkItem pear_in_window started)) = 150%Z /\
   score (snd (checkItem orange_in_window started)) = 200%Z) /\
  caught (fst (checkItem pear_in_window started)) = true.
Proof.
  assert (Lo : 0.85 <= 0.9) by (unfold Qle; simpl; lia).
  assert (Hi : 0.9 < 1.0) by (unfold Qlt; simpl; lia).
  pose proof (score_changes_by_catch_reward apple_in_window started
                (fst (checkItem apple_in_window started))
                (snd (checkItem apple_in_window started)) eq_refl)
    as (_ & _ & _ & A & _).
  pose proof (score_changes_by_catch_reward pear_in_window started
                (fst (checkItem pear_in_window started))
                (snd (checkItem pear_in_window started)) eq_refl)
    as (_ & _ & _ & P & _).
  pose proof (score_changes_by_catch_reward orange_in_window started
                (fst (checkItem orange_in_window started))
                (snd (checkItem orange_in_window started)) eq_refl)
    as (_ & _ & _ & O & _).
  destruct (A eq_refl eq_refl eq_refl Lo Hi) as (A1 & _).
  destruct (P eq_refl eq_refl eq_refl Lo Hi) as (_ & P1 & _).
  destruct (O eq_refl eq_refl eq_refl Lo Hi) as (_ & _ & O1 & _).
  destruct (A1 eq_refl) as (_ & SA).
  destruct (P1 eq_refl) as (CP & SP).
  destruct (O1 eq_refl) as (_ & SO).
  exact (conj (conj SA (conj SP SO)) CP).
Defined.

(** ** Removal *)

Lemma kept_is_not_offscreen_or_caught it :
  Qle_bool (y it) 1.2 && negb (caught it) = negb (offscreen_or_caught it).
Proof.
  unfold offscreen_or_caught, Qltb.
  destruct (Qle_bool (y it) 1.2), (caught it); reflexivity.
Qed.

(** C8: after every [update] call on a reachable engine no live item has
    [y > 1.2] and none is caught; in an active tick the last step keeps, in
    their order, exactly the items left by the resolution step that are
    neither below 1.2 nor caught. *)
Theorem update_removes_offscreen_and_caught :
  forall e r t,
    Reachable e ->
    (forall it, In it (items (update r t e)) -> ~ 1.2 < y it /\ caught it <> true) /\
    (isGameActive e = true ->
       items (update r t e)
       = filter (fun it => negb (offscreen_or_caught it))
           (items (tick_resolved r t e)) /\
       forall it,
         In it (items (update r t e)) <->
         In it (items (tick_resolved r t e)) /\ offscreen_or_caught it = false).
Proof.
  intros e r t Hr.
  assert (K : Forall item_kept (items (update r t e))).
  { apply (Reachable_Inv (step (OpUpdate r t) e)). now constructor. }
  split.
  - intros it Hin. rewrite Forall_forall in K. destruct (K it Hin) as (Hy & Hc).
    split; [now apply Qle_not_lt | congruence].
  - intro Ha. rewrite (update_active r t e Ha).
    unfold update_remove. cbn [items set_items].
    rewrite (filter_ext _ (fun it => negb (offscreen_or_caught it))
               kept_is_not_offscreen_or_caught).
    split; [reflexivity|].
    intro it. rewrite filter_In, negb_true_iff. reflexivity.
Qed.

Lemma update_removes_offscreen_and_caught_witness :
  Forall (fun it => ~ 1.2 < y it /\ caught it <> true)
    (items (update draws_apple_left 13702 two_apples_falling)).
Proof.
  destruct (update_removes_offscreen_and_caught two_apples_falling
              draws_apple_left 13702) as (H & _).
  - apply Reachable_run, Reachable_started.
  - apply Forall_forall. exact H.
Defined.

(** ** Stopping *)

(** C9: [stop()] makes the engine inactive and changes no other field, and
    calling it twice gives the same state as calling it once. *)
Theorem stop_only_clears_active :
  forall e,
    isGameActive (stop e) = false /\
    stop e =
      mkEngine false (score e) (level e) (missCount e) (levelDuration e)
        (currentLevelTime e) (baseDropTime e) (currentDropTime e) (items e)
        (lastSpawnTime e) (nextSpawnInterval e) (basketPosition e) (lastTime e)
        (onScoreChange e) (onGameEnd e) (calls e) /\
    stop (stop e) = stop e.
Proof.
  intro e. repeat split.
Qed.

(** ** Score within a session *)

Lemma step_score op e :
  is_start op = false ->
  score (step op e) = score e \/
  exists r t,
    op = OpUpdate r t /\ isGameActive e = true /\
    score (step op e) =
      (score e +
       rewards (basketPosition e)
         (items (update_move (deltaTime_of t e) (tick_spawned r t e))))%Z.
Proof.
  intro H. destruct op; cbn [step]; try discriminate.
  - left. reflexivity.
  - left. unfold setBasketPose. now destruct (zone_of_label poseLabel).
  - destruct (isGameActive e) eqn:Ha.
    + right. exists r, timestamp. repeat split; auto. now apply update_score.
    + left. now rewrite update_inactive.
  - left. reflexivity.
  - left. reflexivity.
Qed.

Lemma step_score_le op e :
  is_start op = false -> (score e <= score (step op e))%Z.
Proof.
  intro H. destruct (step_score op e H) as [E | (r & t & _ & _ & E)].
  - lia.
  - pose proof (rewards_nonneg (basketPosition e)
                  (items (update_move (deltaTime_of t e) (tick_spawned r t e)))).
    lia.
Qed.

(** C10: over any sequence of calls without [start], the score does not
    decrease; a single call other than [start] leaves the score as it is,
    unless it is an [update] of an active engine, which adds the points of
    the fruits caught in that tick, each of them positive. *)
Theorem score_never_decreases_in_session :
  forall ops e,
    forallb (fun op => negb (is_start op)) ops = true ->
    (score e <= score (run ops e))%Z /\
    (forall op e1,
       In op ops ->
       score (step op e1) = score e1 \/
       exists r t,
         op = OpUpdate r t /\ isGameActive e1 = true /\
         score (step op e1) =
           (score e1 +
            rewards (basketPosition e1)
              (items (update_move (deltaTime_of t e1) (tick_spawned r t e1))))%Z) /\
    (forall k, k <> bomb -> (0 < points_of k)%Z) /\
    (forall it e1, type it = bomb -> score (snd (handleCatch it e1)) = score e1).
Proof.
  intros ops e H. split; [|split; [|split]].
  - revert e. induction ops as [|op ops IH]; intro e; [cbn; lia|].
    cbn [forallb] in H. apply andb_true_iff in H. destruct H as (H1 & H2).
    apply negb_true_iff in H1. cbn [run fold_left].
    specialize (IH H2 (step op e)). unfold run in IH.
    pose proof (step_score_le op e H1). lia.
  - intros op e1 Hin. apply step_score.
    rewrite forallb_forall in H. specialize (H op Hin).
    now apply negb_true_iff in H.
  - intros k Hk. destruct k; cbn; try lia. contradiction.
  - intros it e1 Hb. rewrite handleCatch_bomb by exact Hb. cbn [snd].
    now destruct (gameOver_fields reason_bomb e1) as (_ & _ & S & _).
Qed.

Lemma score_never_decreases_in_session_witness :
  (score started <= score (run slow_frames_two_bombs started))%Z.
Proof.
  destruct (score_never_decreases_in_session slow_frames_two_bombs started)
    as (H & _).
  - reflexivity.
  - exact H.
Defined.

(** * Further properties of the engine *)

(** ** The basket *)

(** X1: [setBasketPose] moves the basket to the zone a label names, for the
    three labels ["LEFT"], ["CENTER"], ["RIGHT"] exactly as written, and
    changes nothing else; with any other string the engine is left as it
    is. *)
Theorem setBasketPose_labels :
  forall poseLabel e,
    (exists z, poseLabel = label_of_zone z /\
               setBasketPose poseLabel e = set_basketPosition z e) \/
    ((forall z, poseLabel <> label_of_zone z) /\ setBasketPose poseLabel e = e).
Proof.
  intros l e. unfold setBasketPose, zone_of_label.
  destruct (String.eqb l "LEFT") eqn:E1.
  { apply String.eqb_eq in E1. left. exists LEFT. now subst. }
  destruct (String.eqb l "CENTER") eqn:E2.
  { apply String.eqb_eq in E2. left. exists CENTER. now subst. }
  destruct (String.eqb l "RIGHT") eqn:E3.
  { apply String.eqb_eq in E3. left. exists RIGHT. now subst. }
  right. split; [|reflexivity].
  apply String.eqb_neq in E1, E2, E3. intros [] H; cbn in H; congruence.
Qed.

(** ** Spawning *)

Lemma draw_ok_range x : draw_ok x = true <-> 0 <= x /\ x < 1.
Proof.
  unfold draw_ok. rewrite andb_true_iff, Qle_bool_iff, Qltb_lt. reflexivity.
Qed.

(** X2: for a draw [rand] of [Math.random()], [getRandomItemType] gives a
    bomb exactly when [rand < 0.2], an apple when [0.2 <= rand < 0.6], a pear
    when [0.6 <= rand < 0.85] and an orange when [0.85 <= rand]. *)
Theorem getRandomItemType_ranges :
  forall rand,
    (getRandomItemType rand = bomb <-> rand < 0.2) /\
    (getRandomItemType rand = apple <-> 0.2 <= rand /\ rand < 0.6) /\
    (getRandomItemType rand = pear <-> 0.6 <= rand /\ rand < 0.85) /\
    (getRandomItemType rand = orange <-> 0.85 <= rand).
Proof.
  intro r. unfold getRandomItemType.
  destruct (Qltb r 0.2) eqn:E1;
    [apply Qltb_lt in E1 | apply Qltb_ge in E1];
    (destruct (Qltb r 0.6) eqn:E2;
      [apply Qltb_lt in E2 | apply Qltb_ge in E2]);
    (destruct (Qltb r 0.85) eqn:E3;
      [apply Qltb_lt in E3 | apply Qltb_ge in E3]);
    repeat split; intros; try discriminate; try tauto; try lra.
Qed.

Lemma Qfloor_between (x : Q) (k : Z) :
  inject_Z k <= x -> x < inject_Z (k + 1) -> Qfloor x = k.
Proof.
  intros Hlo Hhi.
  pose proof (Qfloor_le x) as F1. pose proof (Qlt_floor x) as F2.
  assert (A : (Qfloor x < k + 1)%Z).
  { rewrite Zlt_Qlt. eapply Qle_lt_trans; eassumption. }
  assert (B : (k < Qfloor x + 1)%Z).
  { rewrite Zlt_Qlt. eapply Qle_lt_trans; eassumption. }
  lia.
Qed.

(** X3: [spawnItem] appends one item and keeps the others; the item is at
    [y = 0], neither caught nor processed, of the kind drawn, and for a draw
    [randZone] in [0, 1) its zone is never undefined: it is LEFT for a draw
    up to 0.333, CENTER from 0.334 to 0.666 and RIGHT from 0.667 on. *)
Theorem spawnItem_appends_fresh_item :
  forall randType randZone e,
    0 <= randZone -> randZone < 1 ->
    exists z,
      items (spawnItem randType randZone e)
      = items e ++ [mkItem (getRandomItemType randType) (Some z) 0 false false] /\
      (randZone <= 0.333 -> z = LEFT) /\
      (0.334 <= randZone -> randZone <= 0.666 -> z = CENTER) /\
      (0.667 <= randZone -> z = RIGHT).
Proof.
  intros rt rz e H0 H1. unfold spawnItem. cbn [items set_items].
  change (inject_Z (Z.of_nat (List.length zones))) with 3.
  destruct (Qlt_le_dec rz (1 # 3)) as [A | A].
  - exists LEFT. rewrite (Qfloor_between (rz * 3) 0)
      by (change (inject_Z 0) with 0; change (inject_Z (0 + 1)) with 1; lra).
    split; [reflexivity|]. repeat split; intros; try reflexivity; lra.
  - destruct (Qlt_le_dec rz (2 # 3)) as [B | B].
    + exists CENTER. rewrite (Qfloor_between (rz * 3) 1)
      by (change (inject_Z 1) with 1; change (inject_Z (1 + 1)) with 2; lra).
      split; [reflexivity|]. repeat split; intros; try reflexivity; lra.
    + exists RIGHT. rewrite (Qfloor_between (rz * 3) 2)
      by (change (inject_Z 2) with 2; change (inject_Z (2 + 1)) with 3; lra).
      split; [reflexivity|]. repeat split; intros; try reflexivity; lra.
Qed.

Lemma spawnItem_appends_fresh_item_witness :
  exists z,
    items (spawnItem 0.3 0.5 started)
    = items started ++ [mkItem (getRandomItemType 0.3) (Some z) 0 false false] /\
    (0.5 <= 0.333 -> z = LEFT) /\
    (0.334 <= 0.5 -> 0.5 <= 0.666 -> z = CENTER) /\
    (0.667 <= 0.5 -> z = RIGHT).
Proof.
  apply (spawnItem_appends_fresh_item 0.3 0.5 started).
  - unfold Qle; simpl; lia.
  - unfold Qlt; simpl; lia.
Defined.

(** X4: for a draw [rand] in [0, 1), [scheduleNextSpawn] sets the next
    interval, to within a thousandth of a millisecond, between 600 and 800
    times the drop time; on a reachable engine that is between 300 ms and
    1600 ms, to the same margin.  Nothing else changes. *)
Theorem scheduleNextSpawn_bounds :
  forall rand e,
    Reachable e -> 0 <= rand -> rand < 1 ->
    currentDropTime e * 600 - 0.001
      <= nextSpawnInterval (scheduleNextSpawn rand e) /\
    nextSpawnInterval (scheduleNextSpawn rand e)
      <= currentDropTime e * 800 + 0.001 /\
    300 - 0.001 <= nextSpawnInterval (scheduleNextSpawn rand e) /\
    nextSpawnInterval (scheduleNextSpawn rand e) <= 1600 + 0.001 /\
    scheduleNextSpawn rand e
    = set_nextSpawnInterval (nextSpawnInterval (scheduleNextSpawn rand e)) e.
Proof.
  intros r e Hr H0 H1.
  destruct (Inv_dropTime e (Reachable_Inv e Hr)) as (Lo & Hi).
  unfold scheduleNextSpawn. cbn [nextSpawnInterval set_nextSpawnInterval].
  set (d := currentDropTime e) in *.
  assert (P : 0 <= d * r) by (apply Qmult_le_0_compat; lra).
  assert (P' : 0 <= d * (1 - r)) by (apply Qmult_le_0_compat; lra).
  assert (U : d * r <= 2 * r).
  { assert (0 <= (2 - d) * r) by (apply Qmult_le_0_compat; lra). lra. }
  split; [lra|]. split; [lra|]. split; [lra|]. split; [lra|]. reflexivity.
Qed.

Lemma scheduleNextSpawn_bounds_witness :
  300 - 0.001 <= nextSpawnInterval (scheduleNextSpawn 0.5 started) /\
  nextSpawnInterval (scheduleNextSpawn 0.5 started) <= 1600 + 0.001.
Proof.
  destruct (scheduleNextSpawn_bounds 0.5 started) as (_ & _ & Lo & Hi & _).
  - exact Reachable_started.
  - unfold Qle; simpl; lia.
  - unfold Qlt; simpl; lia.
  - split; assumption.
Defined.

(** ** Steps 1 and 2 of a tick, field by field *)

Lemma tick_spawned_detail r t e :
  let e' := tick_spawned r t e in
  (levelDuration e' = levelDuration e /\ baseDropTime e' = baseDropTime e /\
   lastTime e' = t /\ onScoreChange e' = onScoreChange e /\
   onGameEnd e' = onGameEnd e) /\
  items e' = (if spawn_due t e
              then items e ++ [spawned_item (randType r) (randZone r)]
              else items e) /\
  lastSpawnTime e' = (if spawn_due t e then t else lastSpawnTime e) /\
  (if Qle_bool (levelDuration e) (currentLevelTime e + deltaTime_of t e)
   then level e' = (level e + 1)%Z /\ currentLevelTime e' = 0 /\
        calls e' = calls e ++ (if onScoreChange e
                               then [ScoreChange (score e) (level e + 1) (missCount e)]
                               else [])
   else level e' = level e /\
        currentLevelTime e' = currentLevelTime e + deltaTime_of t e /\
        calls e' = calls e).
Proof.
  unfold tick_spawned, update_spawn, update_levelTimer, spawn_due, spawned_item.
  cbn [levelDuration currentLevelTime set_currentLevelTime set_lastTime].
  destruct (Qle_bool (levelDuration e) (currentLevelTime e + deltaTime_of t e)).
  - unfold levelUp, notifyChange. cbn.
    destruct (onScoreChange e) eqn:Es; cbn;
      destruct (Qltb (lastSpawnTime e + nextSpawnInterval e) t); cbn;
      rewrite ?Es, ?app_nil_r; repeat split; reflexivity.
  - cbn. destruct (Qltb (lastSpawnTime e + nextSpawnInterval e) t); cbn;
      repeat split; reflexivity.
Qed.

(** What steps 3 to 5 keep of the engine after steps 1 and 2. *)
Lemma update_after_spawn r t e :
  isGameActive e = true ->
  same_setup (tick_spawned r t e) (update r t e).
Proof.
  intro Ha. rewrite (update_active r t e Ha). unfold tick_resolved.
  set (es := tick_spawned r t e).
  destruct (checkCollisions_fields (update_move (deltaTime_of t e) es)) as (S & _).
  unfold same_setup in *. unfold update_remove, update_move in *.
  cbn in *. exact S.
Qed.

(** ** Starting *)

(** X5: [start()] forgets the game before it: whatever the engine went
    through, the result is that of starting a new engine with the same
    callbacks (and the same record of calls); the engine is active at level 1
    with score 0, no miss, no item, the basket back in the centre, a drop
    time of 2 s, and the clock at [now]. *)
Theorem start_forgets_previous_game :
  forall now rand e,
    start now rand e
    = start now rand
        (set_calls (calls e)
           (setGameEndCallback (onGameEnd e)
              (setScoreChangeCallback (onScoreChange e) new_GameEngine))) /\
    isGameActive (start now rand e) = true /\
    score (start now rand e) = 0%Z /\ level (start now rand e) = 1%Z /\
    missCount (start now rand e) = 0%Z /\ items (start now rand e) = [] /\
    basketPosition (start now rand e) = CENTER /\
    currentLevelTime (start now rand e) = 0 /\
    currentDropTime (start now rand e) == 2 /\
    lastSpawnTime (start now rand e) = 0 /\ lastTime (start now rand e) = now /\
    calls (start now rand e) = calls e.
Proof.
  intros now rand e. repeat split.
Qed.

Lemma start_nextSpawnInterval now rand e :
  nextSpawnInterval (start now rand e) == 1200 + 400 * rand.
Proof.
  unfold start, scheduleNextSpawn.
  cbn [nextSpawnInterval set_lastTime set_nextSpawnInterval].
  assert (D : currentDropTime (updateDropTime (set_isGameActive true (reset e))) == 2)
    by reflexivity.
  rewrite D. ring.
Qed.

(** X6: [reset()] puts [lastSpawnTime] at 0, not at the clock, so when
    [start()] is called at a clock of 1601 ms or more (with a draw in
    [0, 1)), the first [update] that follows spawns an item at once,
    whatever its timestamp from [now] on: after its spawn step there is
    exactly one item, fresh and of the kind drawn. *)
Theorem first_tick_after_start_spawns :
  forall now rand r t e,
    0 <= rand -> rand < 1 -> 1601 <= now -> now <= t ->
    spawn_due t (start now rand e) = true /\
    (exists it,
       items (tick_spawned r t (start now rand e)) = [it] /\
       type it = getRandomItemType (randType r) /\
       y it = 0 /\ caught it = false /\ processed it = false) /\
    lastSpawnTime (tick_spawned r t (start now rand e)) = t.
Proof.
  intros now rand r t e H0 H1 Hn Ht.
  assert (Due : spawn_due t (start now rand e) = true).
  { unfold spawn_due. apply Qltb_lt.
    pose proof (start_nextSpawnInterval now rand e) as I.
    assert (L : lastSpawnTime (start now rand e) = 0) by reflexivity.
    rewrite L, I. lra. }
  destruct (tick_spawned_detail r t (start now rand e)) as (_ & I & L & _).
  rewrite Due in I, L. split; [exact Due|]. split; [|exact L].
  exists (spawned_item (randType r) (randZone r)).
  split; [exact I|]. repeat split.
Qed.

Lemma first_tick_after_start_spawns_witness :
  exists it,
    items (tick_spawned draws_apple_left 10001 started) = [it] /\
    type it = getRandomItemType (randType draws_apple_left) /\
    y it = 0 /\ caught it = false /\ processed it = false.
Proof.
  destruct (first_tick_after_start_spawns 10000 0.5 draws_apple_left 10001
              (setGameEndCallback true
                 (setScoreChangeCallback true new_GameEngine)))
    as (_ & I & _).
  - unfold Qle; simpl; lia.
  - unfold Qlt; simpl; lia.
  - unfold Qle; simpl; lia.
  - unfold Qle; simpl; lia.
  - exact I.
Defined.

(** ** Inactive engines *)

(** X7: an inactive engine (never started, stopped, or after a game over)
    ignores [update]: any number of [update] calls, whatever their
    timestamps, leaves every field as it is. *)
Theorem inactive_engine_ignores_updates :
  forall ops e,
    isGameActive e = false -> forallb is_update ops = true -> run ops e = e.
Proof.
  induction ops as [|op ops IH]; intros e Ha H; [reflexivity|].
  cbn [forallb] in H. apply andb_true_iff in H. destruct H as (H1 & H2).
  destruct op; try discriminate. cbn [run fold_left step].
  rewrite (update_inactive r timestamp e Ha). now apply IH.
Qed.

Lemma inactive_engine_ignores_updates_witness :
  run slow_frames_three_apples (stop started) = stop started.
Proof.
  apply (inactive_engine_ignores_updates slow_frames_three_apples (stop started)).
  - reflexivity.
  - reflexivity.
Defined.

(** ** The level timer *)

(** X8: an active tick adds the elapsed time to [currentLevelTime]; when the
    sum reaches [levelDuration] the level goes up by exactly one and
    [currentLevelTime] restarts from 0, the excess being dropped, however
    many level durations the tick spans; otherwise the level stays and the
    sum is kept.  The tick records its timestamp in [lastTime]. *)
Theorem update_level_timer :
  forall r t e,
    isGameActive e = true ->
    (levelDuration e <= currentLevelTime e + deltaTime_of t e ->
       level (update r t e) = (level e + 1)%Z /\
       currentLevelTime (update r t e) = 0) /\
    (currentLevelTime e + deltaTime_of t e < levelDuration e ->
       level (update r t e) = level e /\
       currentLevelTime (update r t e) = currentLevelTime e + deltaTime_of t e) /\
    lastTime (update r t e) = t.
Proof.
  intros r t e Ha.
  destruct (update_after_spawn r t e Ha)
    as (Hl & _ & Hc & _ & _ & _ & _ & _ & Ht & _).
  destruct (tick_spawned_detail r t e) as ((_ & _ & T & _) & _ & _ & LT).
  rewrite Hl, Hc, Ht.
  destruct (Qle_bool (levelDuration e) (currentLevelTime e + deltaTime_of t e))
    eqn:E.
  - destruct LT as (L & C & _). apply Qle_bool_iff in E.
    split; [intros _; split; assumption|]. split; [|exact T].
    intro H. exfalso. exact (Qlt_not_le _ _ H E).
  - destruct LT as (L & C & _). apply Qle_bool_gt in E.
    split; [|split; [intros _; split; assumption | exact T]].
    intro H. exfalso. exact (Qlt_not_le _ _ E H).
Qed.

Lemma update_level_timer_witness :
  level (update draws_apple_left 55000 started) = 2%Z /\
  currentLevelTime (update draws_apple_left 55000 started) = 0.
Proof.
  destruct (update_level_timer draws_apple_left 55000 started) as (Up & _).
  - reflexivity.
  - apply Up. unfold Qle; simpl; lia.
Defined.

(** X9: a tick spawns exactly when its timestamp is past
    [lastSpawnTime + nextSpawnInterval]: then one item is appended and the
    timestamp becomes [lastSpawnTime]; otherwise the items and the schedule
    are kept.  So at the end of a tick there is at most one item more than
    before, however long the tick. *)
Theorem update_spawns_at_most_one :
  forall r t e,
    isGameActive e = true ->
    items (tick_spawned r t e)
    = (if spawn_due t e
       then items e ++ [spawned_item (randType r) (randZone r)]
       else items e) /\
    lastSpawnTime (update r t e)
    = (if spawn_due t e then t else lastSpawnTime e) /\
    (List.length (items (update r t e)) <= List.length (items e) + 1)%nat /\
    (spawn_due t e = false ->
     (List.length (items (update r t e)) <= List.length (items e))%nat).
Proof.
  intros r t e Ha.
  destruct (tick_spawned_detail r t e) as (_ & I & L & _).
  destruct (update_after_spawn r t e Ha)
    as (_ & _ & _ & _ & _ & Hs & _).
  assert (Len : (List.length (items (update r t e))
                 <= List.length (items (tick_spawned r t e)))%nat).
  { rewrite (update_active r t e Ha). unfold update_remove, tick_resolved.
    cbn [items set_items].
    eapply Nat.le_trans; [apply filter_length_le|].
    rewrite checkCollisions_eq. cbn [items set_items].
    rewrite forEach_checkItem_length. unfold update_move.
    cbn [items set_items]. now rewrite length_map. }
  split; [exact I|]. split; [now rewrite Hs|].
  rewrite I in Len. destruct (spawn_due t e).
  - rewrite length_app in Len. cbn [List.length] in Len.
    split; [exact Len | discriminate].
  - split; [lia | intros _; exact Len].
Qed.

Lemma update_spawns_at_most_one_witness :
  (List.length (items (update draws_apple_left 11602
                         (update draws_apple_left 10001 started)))
   <= List.length (items (update draws_apple_left 10001 started)) + 1)%nat.
Proof.
  destruct (update_spawns_at_most_one draws_apple_left 11602
              (update draws_apple_left 10001 started)) as (_ & _ & H & _).
  - reflexivity.
  - exact H.
Defined.

(** ** More invariants of the reachable states *)

Lemma is_miss_true it :
  is_miss it = true ->
  caught it = false /\ processed it = false /\ 1.0 <= y it /\ type it <> bomb.
Proof.
  unfold is_miss. intro H.
  apply andb_true_iff in H. destruct H as (H & Hb).
  apply andb_true_iff in H. destruct H as (H & Hy).
  apply andb_true_iff in H. destruct H as (Hi & _).
  apply negb_true_iff, orb_false_iff in Hi. destruct Hi as (Hc & Hp).
  repeat split; auto.
  - now apply Qle_bool_iff in Hy.
  - intro E. rewrite E in Hb. discriminate.
Qed.

Lemma checkItem_is_miss it e :
  is_miss it = true -> snd (checkItem it e) = handleMiss e.
Proof.
  intro H. destruct (is_miss_true it H) as (Hc & Hp & Hy & Hb).
  rewrite (checkItem_past it e Hc Hp Hy). cbn [snd].
  destruct (Kind_eqb (type it) bomb) eqn:E; [|reflexivity].
  apply Kind_eqb_eq in E. contradiction.
Qed.

Lemma checkItem_active_missCount it e :
  (isGameActive e = true -> (missCount e <= 1)%Z) ->
  isGameActive (snd (checkItem it e)) = true ->
  (missCount (snd (checkItem it e)) <= 1)%Z.
Proof.
  intros P Ha.
  destruct (checkItem_frame it e) as (_ & _ & _ & _ & A & _).
  assert (Ha0 : isGameActive e = true).
  { destruct (isGameActive e); [reflexivity|]. rewrite A in Ha; congruence. }
  specialize (P Ha0). rewrite checkItem_missCount.
  destruct (is_miss it) eqn:M; [|lia].
  rewrite (checkItem_is_miss it e M) in Ha.
  destruct (handleMiss_fields e) as (_ & _ & _ & _ & A' & _).
  rewrite A' in Ha. destruct (2 <=? missCount e + 1)%Z eqn:E; [discriminate|].
  apply Z.leb_gt in E. lia.
Qed.

Lemma forEach_active_missCount l e :
  (isGameActive e = true -> (missCount e <= 1)%Z) ->
  isGameActive (snd (forEach_checkItem l e)) = true ->
  (missCount (snd (forEach_checkItem l e)) <= 1)%Z.
Proof.
  revert e. induction l as [|a l IH]; intros e P; [exact P|].
  rewrite forEach_checkItem_cons. cbn [snd]. apply IH.
  now apply checkItem_active_missCount.
Qed.

Lemma rewards_multiple_of_50 b l : exists n, rewards b l = (50 * n)%Z.
Proof.
  unfold rewards. induction (filter (is_catch b) l) as [|a l' (n & IH)].
  - exists 0%Z. reflexivity.
  - cbn [map fold_right]. rewrite IH.
    destruct (type a); cbn [points_of];
      [exists (2 + n)%Z | exists (3 + n)%Z | exists (4 + n)%Z | exists n]; lia.
Qed.

Lemma Inv2_update r t e : isGameActive e = true -> Inv2 e -> Inv2 (update r t e).
Proof.
  intros Ha (Hd & Hb & Hc & (n & Hs) & Hm).
  destruct (update_after_spawn r t e Ha)
    as (_ & Sd & Sc & Sb & _).
  destruct (tick_spawned_detail r t e) as ((Td & Tb & _) & _ & _ & LT).
  unfold Inv2. rewrite Sd, Sc, Sb, Td, Tb.
  split; [exact Hd|]. split; [exact Hb|]. split; [|split].
  - destruct (Qle_bool (levelDuration e) (currentLevelTime e + deltaTime_of t e))
      eqn:E; destruct LT as (_ & C & _); rewrite C.
    + rewrite Hd. reflexivity.
    + now apply Qle_bool_gt in E.
  - rewrite (update_score r t e Ha), Hs.
    destruct (rewards_multiple_of_50 (basketPosition e)
                (items (update_move (deltaTime_of t e) (tick_spawned r t e))))
      as (m & Hr).
    rewrite Hr. exists (n + m)%Z. lia.
  - rewrite (update_active r t e Ha). unfold update_remove, tick_resolved.
    cbn [isGameActive missCount set_items]. rewrite checkCollisions_eq.
    cbn [isGameActive missCount set_items].
    apply forEach_active_missCount.
    destruct (tick_spawned_fields r t e) as (A & _ & M & _).
    unfold update_move. cbn [isGameActive missCount set_items].
    rewrite A, M. exact Hm.
Qed.

Lemma Inv2_step op e : Inv2 e -> Inv2 (step op e).
Proof.
  intros H. destruct op; cbn [step].
  - unfold Inv2. cbn. repeat split; try lia.
    exists 0%Z. reflexivity.
  - destruct H as (Hd & Hb & Hc & Hs & Hm).
    unfold Inv2, stop. cbn. repeat split; auto. discriminate.
  - unfold setBasketPose. destruct (zone_of_label poseLabel); exact H.
  - destruct (isGameActive e) eqn:Ha.
    + now apply Inv2_update.
    + now rewrite update_inactive.
  - exact H.
  - exact H.
Qed.

Lemma Reachable_Inv2 e : Reachable e -> Inv2 e.
Proof.
  induction 1 as [|op e _ IH]; [|now apply Inv2_step].
  unfold Inv2. cbn. repeat split; try discriminate.
  exists 0%Z. reflexivity.
Qed.

(** X10: in every reachable state the level lasts 20 s and the time spent in
    the level is below that: an [update] that reaches 20 s restarts it from
    0.  The time left that the page shows, [levelDuration -
    currentLevelTime], is therefore always positive. *)
Theorem level_time_below_duration :
  forall e,
    Reachable e ->
    levelDuration e = 20 /\ currentLevelTime e < 20 /\
    0 < levelDuration e - currentLevelTime e.
Proof.
  intros e Hr. destruct (Reachable_Inv2 e Hr) as (Hd & _ & Hc & _).
  rewrite Hd in Hc. rewrite Hd. repeat split; [exact Hc | lra].
Qed.

Lemma level_time_below_duration_witness :
  levelDuration (update draws_apple_left 55000 started) = 20 /\
  currentLevelTime (update draws_apple_left 55000 started) < 20 /\
  0 < levelDuration (update draws_apple_left 55000 started)
      - currentLevelTime (update draws_apple_left 55000 started).
Proof.
  apply (level_time_below_duration (update draws_apple_left 55000 started)).
  apply (Reachable_step (OpUpdate draws_apple_left 55000)), Reachable_started.
Defined.

(** X11: in every reachable state the score is a non-negative multiple of
    50, and the miss count is not negative. *)
Theorem score_is_multiple_of_50 :
  forall e,
    Reachable e ->
    (0 <= score e)%Z /\ (exists n, score e = (50 * n)%Z) /\ (0 <= missCount e)%Z.
Proof.
  intros e Hr. destruct (Reachable_Inv2 e Hr) as (_ & _ & _ & Hs & _).
  destruct (Reachable_Inv e Hr) as (_ & _ & _ & S0 & M0).
  repeat split; assumption.
Qed.

Lemma score_is_multiple_of_50_witness :
  (0 <= score two_apples_falling)%Z /\
  (exists n, score two_apples_falling = (50 * n)%Z) /\
  (0 <= missCount two_apples_falling)%Z.
Proof.
  apply (score_is_multiple_of_50 two_apples_falling).
  apply Reachable_run, Reachable_started.
Defined.

(** X12: in every reachable state, an active engine has missed at most one
    fruit: the miss that brings [missCount] to 2 makes the engine inactive,
    and only [start()], which puts [missCount] back to 0, makes it active
    again. *)
Theorem active_engine_missed_at_most_one :
  forall e, Reachable e -> isGameActive e = true -> (missCount e <= 1)%Z.
Proof.
  intros e Hr. destruct (Reachable_Inv2 e Hr) as (_ & _ & _ & _ & Hm). exact Hm.
Qed.

Lemma active_engine_missed_at_most_one_witness :
  (missCount two_apples_falling <= 1)%Z.
Proof.
  apply (active_engine_missed_at_most_one two_apples_falling).
  - apply Reachable_run, Reachable_started.
  - reflexivity.
Defined.

(** ** Game over and [onGameEnd] *)

Lemma count_GameEnd_app l l' :
  count_GameEnd (l ++ l') = (count_GameEnd l + count_GameEnd l')%nat.
Proof. unfold count_GameEnd. now rewrite filter_app, length_app. Qed.

Lemma end_tracked_refl e : end_tracked e e.
Proof. split; [reflexivity|]. intros _. left. split; reflexivity. Qed.

Lemma end_tracked_trans e1 e2 e3 :
  end_tracked e1 e2 -> end_tracked e2 e3 -> end_tracked e1 e3.
Proof.
  intros (G1 & T1) (G2 & T2). split; [congruence|].
  intro On. assert (On2 : onGameEnd e2 = true) by congruence.
  destruct (T1 On) as [(A1 & C1) | (A1 & C1)];
    destruct (T2 On2) as [(A2 & C2) | (A2 & C2)].
  - left. split; congruence.
  - right. split; [exact A2 | lia].
  - right. split; [congruence | lia].
  - right. split; [exact A2 | lia].
Qed.

Lemma notifyChange_end_tracked e : end_tracked e (notifyChange e).
Proof.
  destruct (notifyChange_fields e) as (S & A & _ & _ & _ & C).
  split; [apply S|]. intros _. left. split; [exact A|].
  rewrite C, count_GameEnd_app. destruct (onScoreChange e); cbn; lia.
Qed.

Lemma gameOver_end_tracked reason e : end_tracked e (gameOver reason e).
Proof.
  destruct (gameOver_fields reason e) as (S & A & _ & _ & _ & C).
  split; [apply S|]. intros On. right. split; [exact A|].
  rewrite C, On, count_GameEnd_app. cbn. lia.
Qed.

Lemma handleMiss_end_tracked e : end_tracked e (handleMiss e).
Proof.
  destruct (handleMiss_fields e) as (S & _ & _ & _ & A & C).
  split; [apply S|]. intros On. rewrite A, C, On, !count_GameEnd_app.
  destruct (2 <=? missCount e + 1)%Z; destruct (onScoreChange e); cbn;
    ((left; split; [reflexivity | lia]) || (right; split; [reflexivity | lia])).
Qed.

Lemma checkItem_end_tracked it e : end_tracked e (snd (checkItem it e)).
Proof.
  unfold checkItem, handleCatch.
  destruct (caught it || processed it); [apply end_tracked_refl|].
  destruct (Qle_bool catchThreshold (y it) && Qltb (y it) missThreshold).
  - destruct (zone_is (zone it) (basketPosition e)); [|apply end_tracked_refl].
    destruct (Kind_eqb (type it) bomb); cbn [snd].
    + apply gameOver_end_tracked.
    + eapply end_tracked_trans; [|apply notifyChange_end_tracked].
      split; [reflexivity|]. intros _. left. split; reflexivity.
  - destruct (Qle_bool missThreshold (y it)); [|apply end_tracked_refl].
    cbn [snd]. destruct (negb (Kind_eqb (type it) bomb));
      [apply handleMiss_end_tracked | apply end_tracked_refl].
Qed.

Lemma forEach_checkItem_end_tracked l e :
  end_tracked e (snd (forEach_checkItem l e)).
Proof.
  revert e. induction l as [|a l IH]; intro e.
  - apply end_tracked_refl.
  - rewrite forEach_checkItem_cons. cbn [snd].
    eapply end_tracked_trans; [apply checkItem_end_tracked | apply IH].
Qed.

(** X13: with [onGameEnd] set, a tick of an active engine either leaves it
    active without calling [onGameEnd], or leaves it inactive and has called
    [onGameEnd] at least once: within [update] the engine stops exactly when
    the game-over callback fires. *)
Theorem update_stops_iff_onGameEnd_called :
  forall r t e,
    onGameEnd e = true -> isGameActive e = true ->
    (isGameActive (update r t e) = true /\
     count_GameEnd (calls (update r t e)) = count_GameEnd (calls e)) \/
    (isGameActive (update r t e) = false /\
     (count_GameEnd (calls e) < count_GameEnd (calls (update r t e)))%nat).
Proof.
  intros r t e On Ha.
  set (es := tick_spawned r t e).
  set (em := update_move (deltaTime_of t e) es).
  assert (T0 : end_tracked e em).
  { destruct (tick_spawned_detail r t e) as ((_ & _ & _ & _ & G) & _ & _ & LT).
    destruct (tick_spawned_fields r t e) as (A & _).
    split; [exact G|]. intros _. left. split; [exact A|].
    unfold em, update_move. cbn [calls set_items]. fold es.
    destruct (Qle_bool (levelDuration e) (currentLevelTime e + deltaTime_of t e));
      destruct LT as (_ & _ & C); unfold es; rewrite C; [|reflexivity].
    rewrite count_GameEnd_app. destruct (onScoreChange e); cbn; lia. }
  assert (T1 : end_tracked e (update r t e)).
  { eapply end_tracked_trans; [exact T0|].
    rewrite (update_active r t e Ha). unfold update_remove, tick_resolved.
    fold es em. rewrite checkCollisions_eq.
    destruct (forEach_checkItem_end_tracked (items em) em) as (G & T).
    split; [exact G|]. exact T. }
  destruct T1 as (_ & T1). destruct (T1 On) as [(A & C) | (A & C)].
  - left. split; [congruence | exact C].
  - right. split; assumption.
Qed.

Lemma update_stops_iff_onGameEnd_called_witness :
  (isGameActive (update draws_bomb_center 11711 bomb_frame_before) = true /\
   count_GameEnd (calls (update draws_bomb_center 11711 bomb_frame_before))
   = count_GameEnd (calls bomb_frame_before)) \/
  (isGameActive (update draws_bomb_center 11711 bomb_frame_before) = false /\
   (count_GameEnd (calls bomb_frame_before)
    < count_GameEnd (calls (update draws_bomb_center 11711 bomb_frame_before)))%nat).
Proof.
  apply (update_stops_iff_onGameEnd_called draws_bomb_center 11711
           bomb_frame_before).
  - reflexivity.
  - reflexivity.
Defined.

(** ** Passes without catch or miss *)

Lemma checkItem_no_effect it e :
  is_catch (basketPosition e) it = false -> is_miss it = false ->
  checkItem it e = (mark_passed_bomb it, e).
Proof.
  unfold is_catch, is_miss, in_catch_window, mark_passed_bomb, checkItem.
  destruct (caught it || processed it); cbn [negb andb]; [reflexivity|].
  destruct (Qle_bool catchThreshold (y it) && Qltb (y it) missThreshold) eqn:W;
    cbn [negb andb].
  - intros Hz _. rewrite Hz.
    apply andb_true_iff in W. destruct W as (_ & W). apply Qltb_lt in W.
    assert (E : Qle_bool missThreshold (y it) = false)
      by (apply Qle_bool_gt; exact W).
    rewrite E. reflexivity.
  - intros _ Hm. destruct (Qle_bool missThreshold (y it)); [|reflexivity].
    cbn [andb] in *. apply negb_false_iff in Hm. rewrite Hm. reflexivity.
Qed.

(** X14: a pass of [checkCollisions] in which no item is in the catch window
    of the basket's lane and no fruit has reached the bottom changes nothing
    of the engine (score, miss count, activity, callbacks called) and nothing
    of the items, except that the bombs that have reached the bottom are
    marked processed: a bomb that is not caught costs nothing, and an item
    in the window of another lane is left for the next tick. *)
Theorem pass_without_catch_or_miss :
  forall e,
    (forall it, In it (items e) ->
       is_catch (basketPosition e) it = false /\ is_miss it = false) ->
    checkCollisions e = set_items (map mark_passed_bomb (items e)) e.
Proof.
  intros e H. rewrite checkCollisions_eq.
  assert (G : forall l e0,
             basketPosition e0 = basketPosition e ->
             (forall it, In it l ->
                is_catch (basketPosition e) it = false /\ is_miss it = false) ->
             forEach_checkItem l e0 = (map mark_passed_bomb l, e0)).
  { induction l as [|a l IH]; intros e0 Hb Hl; [reflexivity|].
    destruct (Hl a (or_introl eq_refl)) as (Hc & Hm).
    rewrite forEach_checkItem_cons, checkItem_no_effect by (rewrite ?Hb; assumption).
    cbn [fst snd]. rewrite IH; [reflexivity | exact Hb |].
    intros it Hin. apply Hl. now right. }
  rewrite (G (items e) e eq_refl H). reflexivity.
Qed.

Lemma pass_without_catch_or_miss_witness :
  checkCollisions
    (started_with [mkItem bomb (Some LEFT) 1.05 false false;
                   mkItem apple (Some LEFT) 0.9 false false])
  = set_items
      (map mark_passed_bomb
         [mkItem bomb (Some LEFT) 1.05 false false;
          mkItem apple (Some LEFT) 0.9 false false])
      (started_with [mkItem bomb (Some LEFT) 1.05 false false;
                     mkItem apple (Some LEFT) 0.9 false false]).
Proof.
  apply (pass_without_catch_or_miss
           (started_with [mkItem bomb (Some LEFT) 1.05 false false;
                          mkItem apple (Some LEFT) 0.9 false false])).
  intros it [<- | [<- | []]]; split; reflexivity.
Defined.

(** X15: [update] never moves the basket, never changes a callback slot and
    never changes [levelDuration] or [baseDropTime], whether the engine is
    active or not. *)
Theorem update_leaves_setup :
  forall r t e,
    basketPosition (update r t e) = basketPosition e /\
    onScoreChange (update r t e) = onScoreChange e /\
    onGameEnd (update r t e) = onGameEnd e /\
    levelDuration (update r t e) = levelDuration e /\
    baseDropTime (update r t e) = baseDropTime e.
Proof.
  intros r t e. destruct (isGameActive e) eqn:Ha.
  - destruct (update_after_spawn r t e Ha)
      as (_ & Sd & _ & Sb & _ & _ & _ & Sp & _ & So & Sg).
    destruct (tick_spawned_detail r t e) as ((Td & Tb & _ & To & Tg) & _).
    destruct (tick_spawned_fields r t e) as (_ & _ & _ & Tp & _).
    rewrite Sd, Sb, Sp, So, Sg. repeat split; assumption.
  - rewrite update_inactive by exact Ha. repeat split.
Qed.

(** ** Drawing *)

Lemma circles_app l l' : circles (l ++ l') = circles l ++ circles l'.
Proof. unfold circles. apply flat_map_app. Qed.

Lemma draw_items_circles width height l :
  circles (flat_map (draw_item width height) l)
  = map (fun it => (laneX width (zone it), y it * height))
      (filter (fun it => negb (caught it)) l).
Proof.
  induction l as [|a l IH]; [reflexivity|].
  cbn [flat_map filter]. rewrite circles_app, IH. unfold draw_item.
  destruct (caught a); reflexivity.
Qed.

Lemma draw_items_length width height l :
  List.length (flat_map (draw_item width height) l)
  = (4 * List.length (filter (fun it => negb (caught it)) l))%nat.
Proof.
  induction l as [|a l IH]; [reflexivity|].
  cbn [flat_map filter]. rewrite length_app, IH. unfold draw_item.
  destruct (caught a); cbn [negb List.length]; lia.
Qed.

Lemma filter_all_kept l :
  Forall item_kept l -> filter (fun it => negb (caught it)) l = l.
Proof.
  induction 1 as [|a l (_ & Hc) _ IH]; [reflexivity|].
  cbn [filter]. now rewrite Hc, IH.
Qed.

(** X16: [draw] makes no canvas call on an inactive engine.  On an active
    engine it draws the two lane lines and the basket, then one circle for
    every item that is not caught, in the order of the items, centred at the
    [x] of the item's lane and at [y * height]; in a reachable state no live
    item is caught, so every item is drawn: 9 calls and 4 per item. *)
Theorem draw_one_circle_per_item :
  forall width height e,
    (isGameActive e = false -> draw width height e = []) /\
    (isGameActive e = true ->
       circles (draw width height e)
       = map (fun it => (laneX width (zone it), y it * height))
           (filter (fun it => negb (caught it)) (items e)) /\
       In (FillRect (laneX width (Some (basketPosition e)) - 30)
             (height * 0.9 - 10) 60 20)
          (draw width height e) /\
       (Reachable e ->
          circles (draw width height e)
          = map (fun it => (laneX width (zone it), y it * height)) (items e) /\
          List.length (draw width height e)
          = (9 + 4 * List.length (items e))%nat)).
Proof.
  intros w h e. unfold draw. split; intro Ha; rewrite Ha; cbn [negb].
  - reflexivity.
  - split; [|split].
    + rewrite circles_app. cbn [circles flat_map app].
      apply draw_items_circles.
    + apply in_or_app. left. do 8 right. left. reflexivity.
    + intro Hr. destruct (Reachable_Inv e Hr) as (K & _).
      rewrite circles_app, length_app, draw_items_circles, draw_items_length.
      rewrite (filter_all_kept _ K). cbn [circles flat_map app List.length].
      split; [reflexivity | lia].
Qed.

Lemma laneX_sixth_half (w : Q) : w / 6 == w / 2 -> w == 0.
Proof.
  intro H. unfold Qdiv in H.
  try change (/ 6) with (1 # 6) in H. try change (/ 2) with (1 # 2) in H. lra.
Qed.

Lemma laneX_sixth_five (w : Q) : w / 6 == w * 5 / 6 -> w == 0.
Proof.
  intro H. unfold Qdiv in H.
  try change (/ 6) with (1 # 6) in H. try change (/ 2) with (1 # 2) in H. lra.
Qed.

Lemma laneX_half_five (w : Q) : w / 2 == w * 5 / 6 -> w == 0.
Proof.
  intro H. unfold Qdiv in H.
  try change (/ 6) with (1 # 6) in H. try change (/ 2) with (1 # 2) in H. lra.
Qed.

(** X17: on a canvas of non-zero width the three lanes are drawn at three
    different [x] (1/6, 1/2 and 5/6 of the width): an item is drawn at the
    [x] of the basket exactly when its zone is the basket's, which is when
    [checkCollisions] can catch it; an item without a zone is drawn in the
    centre lane but never matches the basket. *)
Theorem lanes_are_distinct :
  forall width z b,
    ~ width == 0 ->
    (laneX width (Some z) == laneX width (Some b) <-> zone_is (Some z) b = true) /\
    laneX width None == laneX width (Some CENTER) /\
    zone_is None b = false.
Proof.
  intros w z b Hw. split; [|split; reflexivity].
  destruct z, b; cbn [laneX zone_is Zone_eqb]; split; intro H;
    try reflexivity; try discriminate; exfalso; apply Hw.
  - now apply laneX_sixth_half.
  - now apply laneX_sixth_five.
  - apply laneX_sixth_half. now symmetry.
  - now apply laneX_half_five.
  - apply laneX_sixth_five. now symmetry.
  - apply laneX_half_five. now symmetry.
Qed.

Lemma lanes_are_distinct_witness :
  (laneX 400 (Some LEFT) == laneX 400 (Some CENTER)
   <-> zone_is (Some LEFT) CENTER = true) /\
  laneX 400 None == laneX 400 (Some CENTER) /\
  zone_is None CENTER = false.
Proof.
  apply (lanes_are_distinct 400 LEFT CENTER).
  intro H. discriminate H.
Defined.

Lemma draw_one_circle_per_item_witness :
  List.length (draw 400 400 two_apples_falling)
  = (9 + 4 * List.length (items two_apples_falling))%nat.
Proof.
  destruct (draw_one_circle_per_item 400 400 two_apples_falling) as (_ & H).
  destruct (H eq_refl) as (_ & _ & R).
  destruct R as (_ & L).
  - apply Reachable_run, Reachable_started.
  - exact L.
Defined.
